(** * svg-to-ts: the file-conversion pipeline ([files.converter.ts])

    A shallow embedding of [src/lib/converters/files.converter.ts].

    The converter is an orchestration of external collaborators (file
    helpers, code-snippet generators, the TypeScript compiler, the
    logger).  Their calls are recorded in a trace of events; whether a
    call rejects, what the ingestion and the path lookup return and the
    order in which concurrent promises settle are not decided by the
    converter, so they are fields of an environment [Env] that every
    definition is parametric in.

    An event is recorded when the call has completed; a call that is
    rejected leaves no event and rejects the function that awaits it.

    The asynchronous callbacks given to [Promise.all] are embedded as
    resumable tasks ([Task]) which an event loop advances one
    continuation at a time, in the order the environment's schedule
    dictates; every interleaving of the callbacks is the run of some
    schedule.

    The [SvgDefinition] objects are shared and mutable: they live in a
    heap and the array returned by the ingestion holds their addresses.

    A character of a string stands for one UTF-16 code unit;
    [toUpperCase] is left to the environment. *)

From Stdlib Require Import Ascii String.
From stdpp Require Import base tactics option list strings.

(** ** Data model *)

(** Modelled from the spec: the interface [SvgDefinition] of
    [shared.converter], whose declaration is missing; these are the
    fields that the converter reads and the spec lists. *)
Record SvgDefinition := mkSvgDefinition {
  typeName : string;
  variableName : string;
  data : string;
  prefix : string;
  filenameWithoutEnding : string
}.

(** Modelled from the spec: the enumeration
    [SVG_TO_TS_COMPILATION_OUTPUT] of [files-conversion-options], whose
    declaration is missing.  The dispatcher has a case for each of its
    three members and one for any other value, which comes from the
    configuration of the user; [Unrecognized shown] is such a value,
    [shown] being its rendering in a template literal. *)
Inductive SVG_TO_TS_COMPILATION_OUTPUT :=
| ESM
| UMD
| ESM_AND_UMD
| Unrecognized (shown : string).

(** Modelled from the spec: the file kinds [FILE_TYPE] of
    [shared/file-type.model], whose declaration is missing.  The
    converter names only [FILE_TYPE.TSX] and otherwise leaves the
    argument out. *)
Inductive FILE_TYPE := TS | TSX.

(** Modelled from the spec: the interface [FilesConversionOptions] of
    [files-conversion-options], whose declaration is missing; these are
    the fields that [convertToFiles] destructures.  The fields that the
    converter tests for presence are [option string]. *)
Record FilesConversionOptions := mkFilesConversionOptions {
  outputDirectory : string;
  modelFileName : option string;
  additionalModelOutputPath : option string;
  iconsFolderName : string;
  interfaceName : option string;
  compileSources : bool;
  exportCompleteIconSet : bool;
  completeIconSetName : string;
  compilationOutput : SVG_TO_TS_COMPILATION_OUTPUT;
  barrelFileName : string;
  generateType : bool;
  tsx : bool
}.

(** JavaScript truthiness of an optional string: [undefined] and the
    empty string are falsy. *)
Definition truthy (s : option string) : bool :=
  match s with
  | None => false
  | Some EmptyString => false
  | Some (String _ _) => true
  end.

(** An optional string inside a template literal. *)
Definition interpolate (s : option string) : string :=
  match s with
  | None => "undefined"
  | Some s => s
  end.

(** ** Events: calls that cross the boundary of the converter *)

Inductive Event :=
| MonitorStart (label : string)
| MonitorEnd (label : string)
| DeleteFolder (path : string)
| FilesProcessor (conversionOptions : FilesConversionOptions)
| WriteFile (directory : string) (fileName : option string) (content : string)
            (fileType : option FILE_TYPE)
| GetFilePathsFromRegex (patterns : list string)
| CompileToEsNext (filePaths : list string) (outputDir : string)
| CompileToUMD (filePaths : list string) (outputDir : string)
| DeleteFiles (filePaths : list string)
| LoggerVerboseInfo (message : string)
| LoggerError (message : string)
| LoggerGenerationSuccess (path : string).

(** ** The environment *)

Class Env := {
  (** [String.prototype.toUpperCase] *)
  toUpperCase : string → string;
  (** [generators/code-snippet-generators] and
      [helpers/complete-icon-set.helper]: pure string producers *)
  generateSvgConstant : string → string → string → string;
  generateTSXConstant : string → string → string;
  generateExportStatement : option string → string → string;
  generateTypeHelperWithImport : option string → string → option string → string;
  generateTypeDefinition : FilesConversionOptions → list SvgDefinition → string;
  generateEnumDefinition : FilesConversionOptions → list SvgDefinition → string;
  generateInterfaceDefinition : FilesConversionOptions → string;
  generateCompleteIconSetContent :
    list SvgDefinition → string → option string → option string → bool → bool → string;
  (** what the ingestion finds for the given options *)
  svgFiles : FilesConversionOptions → list SvgDefinition;
  (** the paths that match the patterns, given what has happened so far *)
  matchingPaths : list Event → list string → list string;
  (** does this call throw or reject, given what has happened so far? *)
  rejects : list Event → Event → bool;
  (** which pending promise settles next *)
  schedule : list nat
}.

(** ** Worlds, outcomes and the monad of asynchronous functions *)

Inductive Error :=
| Failure (call : Event)
| TypeError.

Inductive Outcome (A : Type) :=
| Resolved (a : A)
| Rejected (e : Error).
Arguments Resolved {A} a.
Arguments Rejected {A} e.

(** [heap] holds the [SvgDefinition] objects of the array returned by the
    ingestion; the array itself is the list of their addresses.
    [fileNames] is the array [generatedFileNames] that the callbacks of a
    generator push to. *)
Record World := mkWorld {
  trace : list Event;
  heap : list SvgDefinition;
  fileNames : list string
}.

Definition M (A : Type) : Type := World → Outcome A * World.

Global Instance M_ret : MRet M := λ A a w, (Resolved a, w).

Global Instance M_bind : MBind M := λ A B f m w,
  match m w with
  | (Resolved a, w') => f a w'
  | (Rejected e, w') => (Rejected e, w')
  end.

Definition emit (ev : Event) (w : World) : World :=
  mkWorld (trace w ++ [ev]) (heap w) (fileNames w).

Section Converter.
Context {env : Env}.

(** A call that the environment may reject. *)
Definition call (ev : Event) : M unit := λ w,
  if rejects (trace w) ev then (Rejected (Failure ev), w)
  else (Resolved (), emit ev w).

(** Logging is observability only. *)
Definition log (ev : Event) : M unit := λ w, (Resolved (), emit ev w).

(** *** [helpers/file-helpers], [helpers/regex-helpers],
    [compiler/typescript-compiler], [helpers/logger] *)

Definition deleteFolder (path : string) : M unit :=
  call (DeleteFolder path).

Definition deleteFiles (filePaths : list string) : M unit :=
  call (DeleteFiles filePaths).

Definition writeFile (directory : string) (fileName : option string)
    (content : string) (fileType : option FILE_TYPE) : M unit :=
  call (WriteFile directory fileName content fileType).

Definition getFilePathsFromRegex (patterns : list string) : M (list string) := λ w,
  if rejects (trace w) (GetFilePathsFromRegex patterns)
  then (Rejected (Failure (GetFilePathsFromRegex patterns)), w)
  else (Resolved (matchingPaths (trace w) patterns),
        emit (GetFilePathsFromRegex patterns) w).

Definition compileToEsNext (filePaths : list string) (outputDir : string) : M unit :=
  call (CompileToEsNext filePaths outputDir).

Definition compileToUMD (filePaths : list string) (outputDir : string) : M unit :=
  call (CompileToUMD filePaths outputDir).

Definition verboseInfo (message : string) : M unit :=
  log (LoggerVerboseInfo message).

Definition error (message : string) : M unit :=
  log (LoggerError message).

Definition generationSuccess (path : string) : M unit :=
  log (LoggerGenerationSuccess path).

(** *** [filesProcessor] of [shared.converter]

    It creates the [SvgDefinition] objects of this invocation; the array
    it returns holds their addresses. *)
Definition allocate (objects : list SvgDefinition) : M (list nat) := λ w,
  (Resolved (seq 0 (length objects)), mkWorld (trace w) objects (fileNames w)).

Definition filesProcessor (conversionOptions : FilesConversionOptions)
    : M (list nat) :=
  call (FilesProcessor conversionOptions);;
  allocate (svgFiles conversionOptions).

(** *** Access to the shared objects *)

(** Reading a property of [svgDefinition]. *)
Definition load (svgDefinition : nat) : M SvgDefinition := λ w,
  match heap w !! svgDefinition with
  | Some d => (Resolved d, w)
  | None => (Rejected TypeError, w)
  end.

(** [svgDefinition.variableName = value] *)
Definition storeVariableName (svgDefinition : nat) (value : string) : M unit := λ w,
  match heap w !! svgDefinition with
  | Some d =>
      (Resolved (),
       mkWorld (trace w)
         (<[svgDefinition :=
             mkSvgDefinition (typeName d) value (data d) (prefix d)
               (filenameWithoutEnding d)]> (heap w))
         (fileNames w))
  | None => (Rejected TypeError, w)
  end.

(** The array as an external function sees it when it is handed over. *)
Definition snapshot (svgDefinitions : list nat) : M (list SvgDefinition) := λ w,
  match mapM (λ a, heap w !! a) svgDefinitions with
  | Some ds => (Resolved ds, w)
  | None => (Rejected TypeError, w)
  end.

(** [const generatedFileNames: string[] = []] *)
Definition newFileNames : M unit := λ w,
  (Resolved (), mkWorld (trace w) (heap w) []).

(** [generatedFileNames.push(generatedFileName)] *)
Definition push (generatedFileName : string) : M unit := λ w,
  (Resolved (), mkWorld (trace w) (heap w) (fileNames w ++ [generatedFileName])).

(** [return generatedFileNames] *)
Definition readFileNames : M (list string) := λ w,
  (Resolved (fileNames w), w).

(** *** [helpers/monitor] *)

(** Modelled from the spec: [callAndMonitorAsync] and [callAndMonitor] of
    [helpers/monitor], whose source is missing.  Each stage is wrapped
    with a named boundary that records label and duration and neither
    alters the stage nor catches its errors: the label is recorded when
    the stage starts and again when it has completed. *)
Definition callAndMonitorAsync {A} (fn : M A) (spinnerMessage : string) : M A :=
  log (MonitorStart spinnerMessage);;
  result ← fn;
  log (MonitorEnd spinnerMessage);;
  mret result.

Definition callAndMonitor {A} (fn : unit → A) (spinnerMessage : string) : M A :=
  log (MonitorStart spinnerMessage);;
  result ← mret (fn ());
  log (MonitorEnd spinnerMessage);;
  mret result.

(** ** Asynchronous callbacks and [Promise.all] *)

(** An [async] arrow function, as the code that remains to run: lines
    that run without interruption ([Sync]) and lines that wait for a
    promise ([Await]); an awaited operation takes effect when it settles. *)
Inductive Task : Type :=
| Return : Task
| Sync {A : Type} (m : M A) (k : A → Task)
| Await {A : Type} (m : M A) (k : A → Task).

Notation "'run' x ← m ; k" := (Sync m (λ x, k))
  (at level 20, x name, m at level 100, k at level 200, only parsing).
Notation "'await' x ← m ; k" := (Await m (λ x, k))
  (at level 20, x name, m at level 100, k at level 200, only parsing).

(** A promise is settled or waits at an [Await]. *)
Inductive Progress :=
| Settled (r : Outcome unit)
| Suspended (t : Task).

(** Runs a callback up to its next [await]. *)
Fixpoint advance (t : Task) (w : World) : Progress * World :=
  match t with
  | Return => (Settled (Resolved ()), w)
  | Sync m k =>
      match m w with
      | (Resolved a, w') => advance (k a) w'
      | (Rejected e, w') => (Settled (Rejected e), w')
      end
  | Await m k => (Suspended (Await m k), w)
  end.

(** The awaited promise of a suspended callback settles and the callback
    continues up to its next [await]. *)
Definition resume (t : Task) (w : World) : Progress * World :=
  match t with
  | Await m k =>
      match m w with
      | (Resolved a, w') => advance (k a) w'
      | (Rejected e, w') => (Settled (Rejected e), w')
      end
  | _ => advance t w
  end.

(** Runs a callback to its end, nothing else running in between. *)
Fixpoint finish (t : Task) (w : World) : Outcome unit * World :=
  match t with
  | Return => (Resolved (), w)
  | Sync m k | Await m k =>
      match m w with
      | (Resolved a, w') => finish (k a) w'
      | (Rejected e, w') => (Rejected e, w')
      end
  end.

(** [Promise.all] rejects with the first rejection it sees. *)
Definition noteRejection (rejection : option Error) (r : Outcome unit)
    : option Error :=
  match rejection, r with
  | Some e, _ => Some e
  | None, Rejected e => Some e
  | None, Resolved _ => None
  end.

(** [array.map(callback)]: every callback is called in turn and runs up
    to its first [await]. *)
Fixpoint spawn (callbacks : list Task) (rejection : option Error) (w : World)
    : list Task * option Error * World :=
  match callbacks with
  | [] => ([], rejection, w)
  | t :: callbacks' =>
      let '(p, w1) := advance t w in
      match p with
      | Settled r => spawn callbacks' (noteRejection rejection r) w1
      | Suspended t' =>
          let '(pool, rejection', w2) := spawn callbacks' rejection w1 in
          (t' :: pool, rejection', w2)
      end
  end.

Fixpoint drain (pool : list Task) (rejection : option Error) (w : World)
    : option Error * World :=
  match pool with
  | [] => (rejection, w)
  | t :: pool' =>
      let '(r, w') := finish t w in
      drain pool' (noteRejection rejection r) w'
  end.

(** The event loop: the schedule names the pending promise that settles
    next; once the schedule is used up the remaining callbacks are
    completed one after the other.  Callbacks that are in flight are not
    cancelled by a rejection. *)
Fixpoint eventLoop (sched : list nat) (pool : list Task)
    (rejection : option Error) (w : World) : option Error * World :=
  match sched with
  | [] => drain pool rejection w
  | n :: sched' =>
      match pool !! (n `mod` length pool) with
      | None => (rejection, w)
      | Some t =>
          let '(p, w') := resume t w in
          match p with
          | Suspended t' =>
              eventLoop sched' (<[n `mod` length pool := t']> pool) rejection w'
          | Settled r =>
              eventLoop sched' (delete (n `mod` length pool) pool)
                (noteRejection rejection r) w'
          end
      end
  end.

(** [await Promise.all(callbacks)] *)
Definition promiseAll (callbacks : list Task) : M unit := λ w,
  let '(pool, rejection, w1) := spawn callbacks None w in
  match eventLoop schedule pool rejection w1 with
  | (None, w2) => (Resolved (), w2)
  | (Some e, w2) => (Rejected e, w2)
  end.

(** ** The converter *)

(** [svgDefinition.variableName.charAt(0).toUpperCase() +
    svgDefinition.variableName.slice(1)] *)
Definition charAt0 (s : string) : string :=
  match s with
  | EmptyString => EmptyString
  | String c _ => String c EmptyString
  end.

Definition slice1 (s : string) : string :=
  match s with
  | EmptyString => EmptyString
  | String _ rest => rest
  end.

Definition capitalize (s : string) : string :=
  toUpperCase (charAt0 s) +:+ slice1 s.

(** The callback of [generateSVGConstants] (lines 125-131). *)
Definition svgConstantCallback (outputDirectory iconsFolderName : string)
    (svgDefinition : nat) : Task :=
  run d ← load svgDefinition;
  let svgConstant := generateSvgConstant (variableName d) (typeName d) (data d) in
  let generatedFileName := prefix d +:+ "-" +:+ filenameWithoutEnding d +:+ ".icon" in
  run _ ← push generatedFileName;
  await _ ← writeFile (outputDirectory +:+ "/" +:+ iconsFolderName)
              (Some generatedFileName) svgConstant None;
  run _ ← verboseInfo ("write file svg: " +:+ outputDirectory +:+ "/" +:+
                         iconsFolderName +:+ "/" +:+ generatedFileName +:+ ".ts");
  Return.

Definition generateSVGConstants (svgDefinitions : list nat)
    (outputDirectory iconsFolderName : string) : M (list string) :=
  newFileNames;;
  promiseAll (svgConstantCallback outputDirectory iconsFolderName <$> svgDefinitions);;
  readFileNames.

(** The callback of [generateTSXFileConstants] (lines 143-152). *)
Definition tsxConstantCallback (outputDirectory iconsFolderName : string)
    (svgDefinition : nat) : Task :=
  run d ← load svgDefinition;
  run _ ← storeVariableName svgDefinition (capitalize (variableName d));
  run d ← load svgDefinition;
  await tsxConstant ← mret (generateTSXConstant (variableName d) (data d));
  run d ← load svgDefinition;
  let generatedFileName := prefix d +:+ "-" +:+ filenameWithoutEnding d +:+ ".icon" in
  run _ ← push generatedFileName;
  await _ ← writeFile (outputDirectory +:+ "/" +:+ iconsFolderName)
              (Some generatedFileName) tsxConstant (Some TSX);
  run _ ← verboseInfo ("write file svg: " +:+ outputDirectory +:+ "/" +:+
                         iconsFolderName +:+ "/" +:+ generatedFileName +:+ ".tsx");
  Return.

Definition generateTSXFileConstants (svgDefinitions : list nat)
    (outputDirectory iconsFolderName : string) : M (list string) :=
  newFileNames;;
  promiseAll (tsxConstantCallback outputDirectory iconsFolderName <$> svgDefinitions);;
  readFileNames.

Definition generateCompleteIconSet (svgDefinitions : list nat)
    (outputDirectory iconsFolderName completeIconSetName : string)
    (interfaceName modelFileName : option string) (generateType tsx : bool)
    : M unit :=
  definitions ← snapshot svgDefinitions;
  let completeIconSetContent :=
    generateCompleteIconSetContent definitions completeIconSetName interfaceName
      modelFileName generateType tsx in
  writeFile (outputDirectory +:+ "/" +:+ iconsFolderName) (Some completeIconSetName)
    completeIconSetContent None.

Definition generateModelFile (conversionOptions : FilesConversionOptions)
    (svgDefinitions : list nat) : M string :=
  let outputDirectory := outputDirectory conversionOptions in
  let modelFileName := modelFileName conversionOptions in
  let additionalModelOutputPath := additionalModelOutputPath conversionOptions in
  let iconsFolderName := iconsFolderName conversionOptions in
  definitions ← snapshot svgDefinitions;
  let typeDefinition := generateTypeDefinition conversionOptions definitions in
  let enumDefinition := generateEnumDefinition conversionOptions definitions in
  let interfaceDefinition := generateInterfaceDefinition conversionOptions in
  let modelFile := typeDefinition +:+ interfaceDefinition +:+ enumDefinition in
  writeFile (outputDirectory +:+ "/" +:+ iconsFolderName) modelFileName modelFile None;;
  verboseInfo ("model-file successfully generated under " +:+ outputDirectory +:+ "/" +:+
               iconsFolderName +:+ "/" +:+ interpolate modelFileName +:+ ".ts");;
  (if truthy additionalModelOutputPath then
     writeFile (interpolate additionalModelOutputPath) modelFileName modelFile None;;
     verboseInfo ("additional model-file successfully generated under " +:+
                  interpolate additionalModelOutputPath +:+ "/" +:+
                  interpolate modelFileName +:+ ".ts")
   else mret ());;
  mret modelFile.

Definition newline : string := String (ascii_of_nat 10) EmptyString.

Definition compileTypeScriptToJS (outputDirectory iconsFolderName barrelFileName : string)
    (compilationOutput : SVG_TO_TS_COMPILATION_OUTPUT) : M unit :=
  generatedTypeScriptFilePaths ← getFilePathsFromRegex
    [outputDirectory +:+ "/" +:+ iconsFolderName +:+ "/*.ts";
     outputDirectory +:+ "/" +:+ barrelFileName +:+ ".ts"];
  match compilationOutput with
  | ESM =>
      compileToEsNext generatedTypeScriptFilePaths outputDirectory;;
      deleteFiles generatedTypeScriptFilePaths
  | UMD =>
      compileToUMD generatedTypeScriptFilePaths outputDirectory;;
      deleteFiles generatedTypeScriptFilePaths
  | ESM_AND_UMD =>
      compileToEsNext generatedTypeScriptFilePaths (outputDirectory +:+ "/esm");;
      compileToUMD generatedTypeScriptFilePaths (outputDirectory +:+ "/umd");;
      deleteFiles generatedTypeScriptFilePaths;;
      deleteFolder (outputDirectory +:+ "/build")
  | Unrecognized shown =>
      error ("Please provide a valid Compilation output. You provided " +:+ shown +:+
             " but " +:+ newline +:+
             "            valid values are (ESM, UMD, ESM_AND_UMD).")
  end.

Definition convertToFiles (conversionOptions : FilesConversionOptions) : M unit :=
  let outputDirectory := outputDirectory conversionOptions in
  let modelFileName := modelFileName conversionOptions in
  let additionalModelOutputPath := additionalModelOutputPath conversionOptions in
  let iconsFolderName := iconsFolderName conversionOptions in
  let interfaceName := interfaceName conversionOptions in
  let compileSources := compileSources conversionOptions in
  let exportCompleteIconSet := exportCompleteIconSet conversionOptions in
  let completeIconSetName := completeIconSetName conversionOptions in
  let compilationOutput := compilationOutput conversionOptions in
  let barrelFileName := barrelFileName conversionOptions in
  let generateType := generateType conversionOptions in
  let tsx := tsx conversionOptions in
  callAndMonitorAsync
    (deleteFolder (outputDirectory +:+ "/" +:+ iconsFolderName))
    "Deleting the output folder";;
  svgDefinitions ← callAndMonitorAsync
    (filesProcessor conversionOptions)
    "Processing SVG files";
  generatedFileNames ←
    (if tsx then
       callAndMonitorAsync
         (generateTSXFileConstants svgDefinitions outputDirectory iconsFolderName)
         "Generate TSX constants"
     else
       callAndMonitorAsync
         (generateSVGConstants svgDefinitions outputDirectory iconsFolderName)
         "Generate SVG constants");
  generatedFileNames ←
    (if exportCompleteIconSet then
       callAndMonitorAsync
         (generateCompleteIconSet svgDefinitions outputDirectory iconsFolderName
            completeIconSetName interfaceName modelFileName generateType tsx)
         "Export complete icon set";;
       mret (generatedFileNames ++ [completeIconSetName])
     else mret generatedFileNames);
  indexFileContent ← callAndMonitor
    (λ _, generateTypeHelperWithImport interfaceName iconsFolderName modelFileName)
    "Generate Type Helper";
  let indexFileContent :=
    indexFileContent +:+
    String.concat "" ((λ generatedFileName,
                         generateExportStatement (Some generatedFileName) iconsFolderName)
                      <$> generatedFileNames) in
  let indexFileContent :=
    indexFileContent +:+ generateExportStatement modelFileName iconsFolderName in
  callAndMonitorAsync
    (writeFile outputDirectory (Some barrelFileName) indexFileContent None)
    "Generate barrel file";;
  (if truthy modelFileName then
     modelFile ← callAndMonitorAsync
       (generateModelFile conversionOptions svgDefinitions)
       "Generate model file";
     if truthy additionalModelOutputPath then
       callAndMonitorAsync
         (writeFile (interpolate additionalModelOutputPath) modelFileName modelFile None)
         "Write model file to additional output path"
     else mret ()
   else mret ());;
  (if compileSources then
     callAndMonitorAsync
       (compileTypeScriptToJS outputDirectory iconsFolderName barrelFileName
          compilationOutput)
       "Compile TypeScript to JavaScript"
   else mret ());;
  generationSuccess outputDirectory.

End Converter.

(** ** Vocabulary of the statements *)

(** [`${prefix}-${filenameWithoutEnding}.icon`] *)
Definition iconFileName (d : SvgDefinition) : string :=
  prefix d +:+ "-" +:+ filenameWithoutEnding d +:+ ".icon".

(** [`${outputDirectory}/${iconsFolderName}`] *)
Definition iconsPath (outputDirectory iconsFolderName : string) : string :=
  outputDirectory +:+ "/" +:+ iconsFolderName.

(** The record after the assignment to [variableName] on the TSX path. *)
Definition capitalizeDefinition `{Env} (d : SvgDefinition) : SvgDefinition :=
  mkSvgDefinition (typeName d) (capitalize (variableName d)) (data d) (prefix d)
    (filenameWithoutEnding d).

(** What one callback of [generateSVGConstants] leaves in the trace. *)
Definition svgWrite `{Env} (outputDirectory iconsFolderName : string)
    (d : SvgDefinition) : Event :=
  WriteFile (iconsPath outputDirectory iconsFolderName) (Some (iconFileName d))
    (generateSvgConstant (variableName d) (typeName d) (data d)) None.

Definition svgLog (outputDirectory iconsFolderName : string)
    (d : SvgDefinition) : Event :=
  LoggerVerboseInfo ("write file svg: " +:+ outputDirectory +:+ "/" +:+
                     iconsFolderName +:+ "/" +:+ iconFileName d +:+ ".ts").

(** What one callback of [generateTSXFileConstants] leaves in the trace;
    [d] is the record as the callback reads it after its assignment. *)
Definition tsxWrite `{Env} (outputDirectory iconsFolderName : string)
    (d : SvgDefinition) : Event :=
  WriteFile (iconsPath outputDirectory iconsFolderName) (Some (iconFileName d))
    (generateTSXConstant (variableName d) (data d)) (Some TSX).

Definition tsxLog (outputDirectory iconsFolderName : string)
    (d : SvgDefinition) : Event :=
  LoggerVerboseInfo ("write file svg: " +:+ outputDirectory +:+ "/" +:+
                     iconsFolderName +:+ "/" +:+ iconFileName d +:+ ".tsx").

(** Events of the per-icon stage: writes into the icons folder and
    verbose log lines. *)
Definition isIconEvent (directory : string) (ev : Event) : Prop :=
  match ev with
  | WriteFile directory' _ _ _ => directory' = directory
  | LoggerVerboseInfo _ => True
  | _ => False
  end.

(** A pending callback of the per-icon stage: it waits for the TSX
    generator (its file name is not pushed yet) or for its write. *)
Inductive Pending :=
| AwaitsGenerator (address : nat) (d : SvgDefinition)
| AwaitsWrite (d : SvgDefinition).

Definition pendingDefinition (p : Pending) : SvgDefinition :=
  match p with
  | AwaitsGenerator _ d | AwaitsWrite d => d
  end.

Definition unpushed (p : Pending) : list SvgDefinition :=
  match p with
  | AwaitsGenerator _ d => [d]
  | AwaitsWrite _ => []
  end.

Definition addressed (objects : list SvgDefinition) (p : Pending) : Prop :=
  match p with
  | AwaitsGenerator a d => objects !! a = Some d
  | AwaitsWrite _ => True
  end.

Definition pushed (generatedFileName : string) (w : World) : World :=
  mkWorld (trace w) (heap w) (fileNames w ++ [generatedFileName]).

(** The environment in which no call is rejected. *)
Definition neverRejects `{Env} : Prop := ∀ history ev, rejects history ev = false.

(** The invariant of the event loop during the per-icon stage, started in
    [w0] with the callbacks [items0]. *)
Definition PoolInv `{Env} (wr lg : SvgDefinition → Event) (task : Pending → Task)
    (directory : string) (w0 : World) (items0 : list Pending)
    (pool : list Task) (rejection : option Error) (w : World) : Prop :=
  heap w = heap w0 ∧
  ∃ items done order evs,
    pool = task <$> items ∧
    Forall (addressed (heap w0)) items ∧
    trace w = trace w0 ++ evs ∧
    Forall (isIconEvent directory) evs ∧
    fileNames w = fileNames w0 ++ (iconFileName <$> order) ∧
    order ++ (items ≫= unpushed) ≡ₚ items0 ≫= unpushed ∧
    (rejection = None →
       evs = (done ≫= λ d, [wr d; lg d]) ∧
       (pendingDefinition <$> items) ++ done ≡ₚ pendingDefinition <$> items0) ∧
    (neverRejects → rejection = None).

(** The step condition of the event loop for an invariant. *)
Definition StepPreserves (Inv : list Task → option Error → World → Prop) : Prop :=
  ∀ pool rejection w i t,
    Inv pool rejection w →
    pool !! i = Some t →
    match resume t w with
    | (Suspended t', w') => Inv (<[i := t']> pool) rejection w'
    | (Settled r, w') => Inv (delete i pool) (noteRejection rejection r) w'
    end.

Definition FinishPreserves (Inv : list Task → option Error → World → Prop)
    (t : Task) : Prop :=
  ∀ pool rejection w r w',
    Inv (t :: pool) rejection w →
    finish t w = (r, w') →
    Inv pool (noteRejection rejection r) w'.

(** The pending callbacks of [generateSVGConstants].  Its callbacks never
    wait for a generator: they push their file name before their only
    [await]; that case is there for totality. *)
Definition svgTask `{Env} (outputDirectory iconsFolderName : string)
    (p : Pending) : Task :=
  let writeThenLog d :=
    Await (writeFile (outputDirectory +:+ "/" +:+ iconsFolderName)
             (Some (iconFileName d))
             (generateSvgConstant (variableName d) (typeName d) (data d)) None)
      (λ _, Sync (verboseInfo ("write file svg: " +:+ outputDirectory +:+ "/" +:+
                               iconsFolderName +:+ "/" +:+ iconFileName d +:+ ".ts"))
              (λ _, Return)) in
  match p with
  | AwaitsWrite d => writeThenLog d
  | AwaitsGenerator _ d =>
      Await (mret ()) (λ _, Sync (push (iconFileName d)) (λ _, writeThenLog d))
  end.

(** The pending callbacks of [generateTSXFileConstants]: before the
    generator has settled (lines 146-151 remain) and after it (lines
    149-151 remain). *)
Definition tsxTask `{Env} (outputDirectory iconsFolderName : string)
    (p : Pending) : Task :=
  match p with
  | AwaitsGenerator svgDefinition d =>
      Await (mret (generateTSXConstant (variableName d) (data d)))
        (λ tsxConstant,
           Sync (load svgDefinition) (λ d,
           Sync (push (prefix d +:+ "-" +:+ filenameWithoutEnding d +:+ ".icon")) (λ _,
           Await (writeFile (outputDirectory +:+ "/" +:+ iconsFolderName)
                    (Some (prefix d +:+ "-" +:+ filenameWithoutEnding d +:+ ".icon"))
                    tsxConstant (Some TSX)) (λ _,
           Sync (verboseInfo ("write file svg: " +:+ outputDirectory +:+ "/" +:+
                              iconsFolderName +:+ "/" +:+
                              (prefix d +:+ "-" +:+ filenameWithoutEnding d +:+ ".icon")
                              +:+ ".tsx")) (λ _,
           Return)))))
  | AwaitsWrite d =>
      Await (writeFile (outputDirectory +:+ "/" +:+ iconsFolderName)
               (Some (iconFileName d))
               (generateTSXConstant (variableName d) (data d)) (Some TSX))
        (λ _, Sync (verboseInfo ("write file svg: " +:+ outputDirectory +:+ "/" +:+
                                 iconsFolderName +:+ "/" +:+ iconFileName d +:+ ".tsx"))
                (λ _, Return))
  end.

(** The callbacks that wait for the generator, for the objects at the
    addresses from [address] on. *)
Fixpoint generatorItems (address : nat) (objects : list SvgDefinition)
    : list Pending :=
  match objects with
  | [] => []
  | d :: objects' => AwaitsGenerator address d :: generatorItems (S address) objects'
  end.

(** ** The stages of a run, as the statements describe them *)

(** What a monitored stage leaves in the trace once it has completed. *)
Definition bracket (stage : string * list Event) : list Event :=
  MonitorStart stage.1 :: stage.2 ++ [MonitorEnd stage.1].

Section Stages.
Context {env : Env} (o : FilesConversionOptions).

(** The objects as they are once the per-icon stage has started. *)
Definition objects : list SvgDefinition :=
  if tsx o then capitalizeDefinition <$> svgFiles o else svgFiles o.

Definition iconLabel : string :=
  if tsx o then "Generate TSX constants" else "Generate SVG constants".

(** The per-icon stage, [done] being the objects in the order in which
    their writes settled. *)
Definition iconEvents (done : list SvgDefinition) : list Event :=
  if tsx o
  then done ≫= λ d, [tsxWrite (outputDirectory o) (iconsFolderName o) d;
                     tsxLog (outputDirectory o) (iconsFolderName o) d]
  else done ≫= λ d, [svgWrite (outputDirectory o) (iconsFolderName o) d;
                     svgLog (outputDirectory o) (iconsFolderName o) d].

Definition completeIconSetWrite : Event :=
  WriteFile (iconsPath (outputDirectory o) (iconsFolderName o))
    (Some (completeIconSetName o))
    (generateCompleteIconSetContent objects (completeIconSetName o) (interfaceName o)
       (modelFileName o) (generateType o) (tsx o))
    None.

(** The names the barrel file exports from the icons folder besides the
    model file, [names] being the per-icon file names as pushed. *)
Definition exportedNames (names : list string) : list string :=
  names ++ (if exportCompleteIconSet o then [completeIconSetName o] else []).

Definition exportStatements (names : list string) : list string :=
  (λ generatedFileName,
     generateExportStatement (Some generatedFileName) (iconsFolderName o))
  <$> exportedNames names.

Definition barrelContent (names : list string) : string :=
  (generateTypeHelperWithImport (interfaceName o) (iconsFolderName o) (modelFileName o)
   +:+ String.concat "" (exportStatements names))
  +:+ generateExportStatement (modelFileName o) (iconsFolderName o).

Definition barrelWrite (names : list string) : Event :=
  WriteFile (outputDirectory o) (Some (barrelFileName o)) (barrelContent names) None.

Definition modelFileContent : string :=
  generateTypeDefinition o objects +:+ generateInterfaceDefinition o +:+
  generateEnumDefinition o objects.

Definition modelWrite : Event :=
  WriteFile (iconsPath (outputDirectory o) (iconsFolderName o)) (modelFileName o)
    modelFileContent None.

Definition additionalModelWrite : Event :=
  WriteFile (interpolate (additionalModelOutputPath o)) (modelFileName o)
    modelFileContent None.

Definition modelEffects : list Event :=
  [modelWrite;
   LoggerVerboseInfo ("model-file successfully generated under " +:+
                      outputDirectory o +:+ "/" +:+ iconsFolderName o +:+ "/" +:+
                      interpolate (modelFileName o) +:+ ".ts")] ++
  (if truthy (additionalModelOutputPath o) then
     [additionalModelWrite;
      LoggerVerboseInfo ("additional model-file successfully generated under " +:+
                         interpolate (additionalModelOutputPath o) +:+ "/" +:+
                         interpolate (modelFileName o) +:+ ".ts")]
   else []).

Definition compilePatterns : list string :=
  [outputDirectory o +:+ "/" +:+ iconsFolderName o +:+ "/*.ts";
   outputDirectory o +:+ "/" +:+ barrelFileName o +:+ ".ts"].

Definition invalidOutputMessage (shown : string) : string :=
  "Please provide a valid Compilation output. You provided " +:+ shown +:+
  " but " +:+ newline +:+
  "            valid values are (ESM, UMD, ESM_AND_UMD).".

(** The compilation stage, [paths] being the resolved paths. *)
Definition compileEffects (paths : list string) : list Event :=
  GetFilePathsFromRegex compilePatterns ::
  match compilationOutput o with
  | ESM => [CompileToEsNext paths (outputDirectory o); DeleteFiles paths]
  | UMD => [CompileToUMD paths (outputDirectory o); DeleteFiles paths]
  | ESM_AND_UMD =>
      [CompileToEsNext paths (outputDirectory o +:+ "/esm");
       CompileToUMD paths (outputDirectory o +:+ "/umd");
       DeleteFiles paths;
       DeleteFolder (outputDirectory o +:+ "/build")]
  | Unrecognized shown => [LoggerError (invalidOutputMessage shown)]
  end.

(** The stages of one invocation in their order, each with its label and
    with the calls it makes when it completes. *)
Definition stages (done : list SvgDefinition) (names paths : list string)
    : list (string * list Event) :=
  [("Deleting the output folder",
    [DeleteFolder (iconsPath (outputDirectory o) (iconsFolderName o))]);
   ("Processing SVG files", [FilesProcessor o]);
   (iconLabel, iconEvents done)] ++
  (if exportCompleteIconSet o
   then [("Export complete icon set", [completeIconSetWrite])] else []) ++
  [("Generate Type Helper", []);
   ("Generate barrel file", [barrelWrite names])] ++
  (if truthy (modelFileName o)
   then ("Generate model file", modelEffects) ::
        (if truthy (additionalModelOutputPath o)
         then [("Write model file to additional output path", [additionalModelWrite])]
         else [])
   else []) ++
  (if compileSources o
   then [("Compile TypeScript to JavaScript", compileEffects paths)] else []).

(** What a stage that failed has left behind: the calls it made before
    the one that failed; for the per-icon stage, whose writes run
    concurrently, writes into the icons folder and their log lines. *)
Definition stagePartial (stage : string * list Event) (partial : list Event) : Prop :=
  (∃ ev rest, stage.2 = partial ++ ev :: rest) ∨
  (stage.1 = iconLabel ∧
   Forall (isIconEvent (iconsPath (outputDirectory o) (iconsFolderName o))) partial).

(** The trace of a run of the stages [sts] from [w] to [w']: the stages
    completed, and for a rejected run the stage that failed, which only
    happens when the environment rejects a call. *)
Definition Staged {A} (sts : list (string * list Event)) (w : World)
    (r : Outcome A) (w' : World) : Prop :=
  match r with
  | Resolved _ => trace w' = trace w ++ (sts ≫= bracket)
  | Rejected _ =>
      ¬ neverRejects ∧
      ∃ completed failed rest partial,
        sts = completed ++ failed :: rest ∧
        trace w' = trace w ++ (completed ≫= bracket) ++ MonitorStart failed.1 :: partial ∧
        stagePartial failed partial
  end.

End Stages.

(** The trace of a run of a stage body that makes the calls [full] in
    sequence: it stops at the first call [ev] that the environment
    rejects, and is rejected with it. *)
Definition Effects `{Env} {A} (full : list Event) (w : World) (r : Outcome A) (w' : World)
    : Prop :=
  match r with
  | Resolved _ => trace w' = trace w ++ full
  | Rejected e =>
      ∃ partial ev rest,
        full = partial ++ ev :: rest ∧
        trace w' = trace w ++ partial ∧
        rejects (trace w') ev = true ∧
        e = Failure ev
  end.

(** What a run of [convertToFiles] from [w0] with outcome [r] leaves in
    the world [w]: [done] are the objects in the order in which their
    per-icon writes settled, [names] the per-icon file names in the order
    in which they were pushed and [paths] the paths resolved for the
    compiler. *)
Definition Run `{Env} (o : FilesConversionOptions) (w0 : World) (r : Outcome unit)
    (w : World) : Prop :=
  ∃ done names paths,
    done ≡ₚ objects o ∧
    names ≡ₚ iconFileName <$> svgFiles o ∧
    (tsx o = false → names = iconFileName <$> svgFiles o) ∧
    (heap w = objects o ∨ heap w = heap w0 ∧ ∃ e, r = Rejected e) ∧
    match r with
    | Resolved _ =>
        trace w = trace w0 ++ (stages o done names paths ≫= bracket) ++
                  [LoggerGenerationSuccess (outputDirectory o)]
    | Rejected _ => Staged o (stages o done names paths) w0 r w
    end.

(** Calls of the collaborators, as opposed to the marks of the monitor. *)
Definition isCall (ev : Event) : Prop :=
  match ev with
  | MonitorStart _ | MonitorEnd _ => False
  | _ => True
  end.


(** ** A concrete environment and concrete inputs *)

Definition upperAscii (c : ascii) : ascii :=
  let n := nat_of_ascii c in
  if (97 <=? n) && (n <=? 122) then ascii_of_nat (n - 32) else c.

Fixpoint upperString (s : string) : string :=
  match s with
  | EmptyString => EmptyString
  | String c rest => String (upperAscii c) (upperString rest)
  end.

Definition demoIcons : list SvgDefinition :=
  [mkSvgDefinition "navHome" "navHome" "<svg>h</svg>" "nav" "home";
   mkSvgDefinition "navBack" "navBack" "<svg>b</svg>" "nav" "back"].

(** An environment with simple generators, the icons [demoIcons], a
    path lookup that returns its patterns, and the given decisions. *)
Definition demoEnv (reject : list Event → Event → bool) (sched : list nat) : Env := {|
  toUpperCase := upperString;
  generateSvgConstant v t d := "export const " +:+ v +:+ ": " +:+ t +:+ " = " +:+ d +:+ ";";
  generateTSXConstant v d := "export const " +:+ v +:+ " = () => " +:+ d +:+ ";";
  generateExportStatement f directory :=
    "export * from './" +:+ directory +:+ "/" +:+ interpolate f +:+ "';";
  generateTypeHelperWithImport i directory m :=
    "import {" +:+ interpolate i +:+ "} from './" +:+ directory +:+ "/" +:+
    interpolate m +:+ "';";
  generateTypeDefinition _ ds := "type T = " +:+ String.concat "|" (variableName <$> ds) +:+ ";";
  generateEnumDefinition _ ds := "enum E {" +:+ String.concat "," (variableName <$> ds) +:+ "}";
  generateInterfaceDefinition c := "interface " +:+ interpolate (interfaceName c) +:+ " {}";
  generateCompleteIconSetContent ds n _ _ _ _ :=
    "set " +:+ n +:+ " = [" +:+ String.concat "," (variableName <$> ds) +:+ "]";
  svgFiles _ := demoIcons;
  matchingPaths _ patterns := patterns;
  rejects := reject;
  schedule := sched
|}.

Definition noRejection : list Event → Event → bool := λ _ _, false.

(** Rejects every write of the given file name. *)
Definition rejectWriteOf (name : string) : list Event → Event → bool := λ _ ev,
  match ev with
  | WriteFile _ (Some name') _ _ => String.eqb name name'
  | _ => false
  end.

Definition demoOptions (tsx : bool) (output : SVG_TO_TS_COMPILATION_OUTPUT)
    : FilesConversionOptions :=
  mkFilesConversionOptions "out" (Some "model") (Some "extra") "icons" (Some "Icon")
    true true "all" output "index" true tsx.

Definition freshWorld : World := mkWorld [] [] [].

(** A world in which the ingestion has returned [demoIcons]. *)
Definition demoWorld : World := mkWorld [] demoIcons [].

(** The run of the converter on the demo icons in which nothing is
    rejected and the writes settle in the order of the array. *)
Definition demoRun : Outcome unit * World :=
  convertToFiles (env := demoEnv noRejection []) (demoOptions false ESM) freshWorld.

(** ** Vocabulary of the further properties *)

Definition isWrite (ev : Event) : bool :=
  match ev with
  | WriteFile _ _ _ _ => true
  | _ => false
  end.


Definition countOf (f : Event → bool) (evs : list Event) : nat :=
  length (List.filter f evs).

(** The number of [writeFile] calls that have completed. *)
Definition writeCount (evs : list Event) : nat := countOf isWrite evs.


(** The files a run writes when it resolves: one per icon, the complete
    icon set, the barrel file, and the model file with its two copies at
    the additional path. *)
Definition writesOfRun `{Env} (o : FilesConversionOptions) : nat :=
  length (svgFiles o) + (if exportCompleteIconSet o then 1 else 0) + 1 +
  (if truthy (modelFileName o)
   then if truthy (additionalModelOutputPath o) then 3 else 1
   else 0).

(** The directories an invocation writes to. *)
Definition outputDirectories (o : FilesConversionOptions) : list string :=
  [iconsPath (outputDirectory o) (iconsFolderName o); outputDirectory o] ++
  (if truthy (modelFileName o) && truthy (additionalModelOutputPath o)
   then [interpolate (additionalModelOutputPath o)] else []).

Definition writesInto (directories : list string) (ev : Event) : Prop :=
  match ev with
  | WriteFile directory _ _ _ => directory ∈ directories
  | _ => True
  end.

(** The folders an invocation deletes. *)
Definition deletedFolders (o : FilesConversionOptions) : list string :=
  iconsPath (outputDirectory o) (iconsFolderName o) ::
  (if compileSources o
   then match compilationOutput o with
        | ESM_AND_UMD => [outputDirectory o +:+ "/build"]
        | _ => []
        end
   else []).

Definition deletesOnly (folders : list string) (ev : Event) : Prop :=
  match ev with
  | DeleteFolder path => path ∈ folders
  | _ => True
  end.

(** The calls of the compilation stage. *)
Definition isCompilerEvent (ev : Event) : Prop :=
  match ev with
  | GetFilePathsFromRegex _ | CompileToEsNext _ _ | CompileToUMD _ _
  | DeleteFiles _ | LoggerError _ => True
  | _ => False
  end.

Definition isSuccess (ev : Event) : Prop :=
  match ev with
  | LoggerGenerationSuccess _ => True
  | _ => False
  end.

(** The environment [e] with other icons and another schedule. *)
Definition withIcons (icons : list SvgDefinition) (sched : list nat) (e : Env) : Env := {|
  toUpperCase := @toUpperCase e;
  generateSvgConstant := @generateSvgConstant e;
  generateTSXConstant := @generateTSXConstant e;
  generateExportStatement := @generateExportStatement e;
  generateTypeHelperWithImport := @generateTypeHelperWithImport e;
  generateTypeDefinition := @generateTypeDefinition e;
  generateEnumDefinition := @generateEnumDefinition e;
  generateInterfaceDefinition := @generateInterfaceDefinition e;
  generateCompleteIconSetContent := @generateCompleteIconSetContent e;
  svgFiles _ := icons;
  matchingPaths := @matchingPaths e;
  rejects := @rejects e;
  schedule := sched
|}.

(** Options with nothing optional configured: no model file, no complete
    icon set, no compilation. *)
Definition plainOptions (tsx : bool) : FilesConversionOptions :=
  mkFilesConversionOptions "out" None (Some "extra") "icons" None
    false false "all" ESM "index" false tsx.

(** Icons whose variable names are capitalised already. *)
Definition capitalIcons : list SvgDefinition :=
  [mkSvgDefinition "navHome" "NavHome" "<svg>h</svg>" "nav" "home";
   mkSvgDefinition "navBack" "NavBack" "<svg>b</svg>" "nav" "back"].

(** The error [e] of a rejection between the worlds [w0] and [w] is the
    failure of a call that the environment rejected in between. *)
Definition Blamed `{Env} (w0 : World) (e : Error) (w : World) : Prop :=
  ∃ ev history,
    e = Failure ev ∧
    rejects history ev = true ∧
    trace w0 `prefix_of` history ∧
    history `prefix_of` trace w.

(** A run of [m] from a world whose objects satisfy [Pre] extends the
    trace; when it resolves the objects satisfy [Post], and when it is
    rejected the error is the failure of a call rejected during the run. *)
Definition Triple `{Env} {A} (Pre : list SvgDefinition → Prop) (m : M A)
    (Post : A → list SvgDefinition → Prop) : Prop :=
  ∀ w r w',
    Pre (heap w) →
    m w = (r, w') →
    trace w `prefix_of` trace w' ∧
    match r with
    | Resolved a => Post a (heap w')
    | Rejected e => Blamed w e w'
    end.

(** The invariant of the event loop of the per-icon stage, with the
    origin of the rejection it has noted. *)
Definition BlameInv `{Env} (wr lg : SvgDefinition → Event) (task : Pending → Task)
    (directory : string) (w0 : World) (items0 : list Pending)
    (pool : list Task) (rejection : option Error) (w : World) : Prop :=
  PoolInv wr lg task directory w0 items0 pool rejection w ∧
  ∀ e, rejection = Some e → Blamed w0 e w.

(** Rejects every call of the UMD compiler. *)
Definition rejectCompileToUMD : list Event → Event → bool := λ _ ev,
  match ev with
  | CompileToUMD _ _ => true
  | _ => false
  end.

(** * Verification *)

(** ** The event loop preserves every invariant of its steps *)

Section EventLoopInvariant.
Variable Inv : list Task → option Error → World → Prop.
Hypothesis step : StepPreserves Inv.

Lemma finish_advance t w :
  finish t w =
  match advance t w with
  | (Settled r, w') => (r, w')
  | (Suspended t', w') => finish t' w'
  end.
Proof.
  revert w. induction t as [|A m k IH|A m k IH]; intros w; simpl; [done| |done].
  destruct (m w) as [[a|e] w1]; [apply IH|done].
Qed.

Lemma advance_finish_preserves t w :
  match advance t w with
  | (Suspended t', _) => FinishPreserves Inv t'
  | (Settled _, _) => True
  end.
Proof.
  revert w. induction t as [|A m k IH|A m k IH]; intros w; simpl; [done| |].
  - destruct (m w) as [[a|e] w1]; [apply IH|done].
  - intros pool rejection w0 r w' HI Hfin.
    pose proof (step _ _ _ 0 _ HI eq_refl) as Hstep.
    simpl in Hstep, Hfin.
    destruct (m w0) as [[a|e] w1]; [|by simplify_eq].
    rewrite finish_advance in Hfin.
    specialize (IH a w1).
    destruct (advance (k a) w1) as [[r1|t1] w2]; [by simplify_eq|].
    by eapply IH.
Qed.

Lemma finish_preserves t : FinishPreserves Inv t.
Proof.
  intros pool rejection w r w' HI Hfin.
  destruct t as [|A m k|A m k].
  - pose proof (step _ _ _ 0 _ HI eq_refl) as Hstep. simpl in *. by simplify_eq.
  - pose proof (step _ _ _ 0 _ HI eq_refl) as Hstep.
    pose proof (advance_finish_preserves (Sync m k) w) as Hadv.
    rewrite finish_advance in Hfin. unfold resume in Hstep.
    destruct (advance (Sync m k) w) as [[r1|t1] w2]; [by simplify_eq|].
    by eapply Hadv.
  - pose proof (advance_finish_preserves (Await m k) w) as Hadv. simpl in Hadv.
    by eapply Hadv.
Qed.

Lemma drain_preserves pool rejection w rejection' w' :
  Inv pool rejection w →
  drain pool rejection w = (rejection', w') →
  Inv [] rejection' w'.
Proof.
  revert rejection w. induction pool as [|t pool IH]; intros rejection w HI Hd; simpl in Hd.
  - by simplify_eq.
  - destruct (finish t w) as [r w1] eqn:Hfin.
    eapply IH; [|done]. by eapply finish_preserves.
Qed.

Lemma eventLoop_preserves sched pool rejection w rejection' w' :
  Inv pool rejection w →
  eventLoop sched pool rejection w = (rejection', w') →
  Inv [] rejection' w'.
Proof.
  revert pool rejection w.
  induction sched as [|n sched IH]; intros pool rejection w HI Hloop; simpl in Hloop.
  - by eapply drain_preserves.
  - destruct (pool !! (n `mod` length pool)) as [t|] eqn:Hlook.
    + pose proof (step _ _ _ _ _ HI Hlook) as Hstep.
      destruct (resume t w) as [[r|t'] w1]; by eapply IH.
    + simplify_eq. destruct pool as [|t pool]; [done|].
      apply lookup_ge_None in Hlook.
      pose proof (Nat.mod_upper_bound n (length (t :: pool))) as Hlt.
      simpl in *. lia.
Qed.

End EventLoopInvariant.

(** ** The pool of the per-icon stage *)

Section IconPool.
Context {env : Env}.
Variables (wr lg : SvgDefinition → Event) (task : Pending → Task) (dir : string).
Hypothesis wr_icon : ∀ d, isIconEvent dir (wr d).
Hypothesis lg_icon : ∀ d, isIconEvent dir (lg d).
Hypothesis resume_generator : ∀ a d w,
  heap w !! a = Some d →
  resume (task (AwaitsGenerator a d)) w
  = (Suspended (task (AwaitsWrite d)), pushed (iconFileName d) w).
Hypothesis resume_write : ∀ d w,
  resume (task (AwaitsWrite d)) w
  = if rejects (trace w) (wr d) then (Settled (Rejected (Failure (wr d))), w)
    else (Settled (Resolved ()), emit (lg d) (emit (wr d) w)).

Lemma unpushed_insert_write (items : list Pending) i a d :
  items !! i = Some (AwaitsGenerator a d) →
  items ≫= unpushed ≡ₚ d :: (<[i := AwaitsWrite d]> items ≫= unpushed).
Proof.
  intros Hi. pose proof (take_drop_middle _ _ _ Hi) as Hsplit.
  rewrite insert_take_drop; [|by eapply lookup_lt_Some].
  rewrite <-Hsplit at 1.
  rewrite !bind_app, !bind_cons. simpl.
  by rewrite <-Permutation_middle.
Qed.

Lemma unpushed_delete_write (items : list Pending) i d :
  items !! i = Some (AwaitsWrite d) →
  delete i items ≫= unpushed = items ≫= unpushed.
Proof.
  intros Hi. pose proof (take_drop_middle _ _ _ Hi) as Hsplit.
  rewrite delete_take_drop. rewrite <-Hsplit at 3.
  by rewrite !bind_app, bind_cons.
Qed.

Lemma pool_step w0 items0 : StepPreserves (PoolInv wr lg task dir w0 items0).
Proof.
  intros pool rejection w i t (Hheap & items & done & order & evs & -> & Haddr & Htr &
    Hevs & Hnames & Hperm & Hok & Hnever) Hi.
  apply list_lookup_fmap_Some in Hi as (item & -> & Hitem).
  destruct item as [a d|d].
  - (* the generator settles: the name is pushed and the write is issued *)
    assert (heap w !! a = Some d) as Ha.
    { rewrite Hheap. by apply (Forall_lookup_1 _ _ _ _ Haddr Hitem). }
    rewrite (resume_generator _ _ _ Ha).
    split; [done|].
    exists (<[i := AwaitsWrite d]> items), done, (order ++ [d]), evs.
    split_and!; try done.
    + by rewrite list_fmap_insert.
    + by apply Forall_insert.
    + simpl. by rewrite Hnames, fmap_app, app_assoc.
    + rewrite <-Hperm, (unpushed_insert_write _ _ _ _ Hitem).
      rewrite <-app_assoc. simpl. done.
    + intros Hrej. destruct (Hok Hrej) as [-> Hdone]. split; [done|].
      rewrite list_fmap_insert. simpl.
      rewrite list_insert_id; [done|]. by rewrite list_lookup_fmap, Hitem.
  - (* the write settles *)
    rewrite resume_write.
    destruct (rejects (trace w) (wr d)) eqn:Hrej.
    + split; [done|].
      exists (delete i items), done, order, evs.
      split_and!; try done.
      * by rewrite list_fmap_delete.
      * by apply Forall_delete.
      * by rewrite (unpushed_delete_write _ _ _ Hitem).
      * by destruct rejection.
      * intros Hn. by rewrite Hn in Hrej.
    + split; [done|].
      exists (delete i items), (done ++ [d]), order, (evs ++ [wr d; lg d]).
      split_and!; try done.
      * by rewrite list_fmap_delete.
      * by apply Forall_delete.
      * simpl. rewrite Htr, <-!app_assoc. done.
      * apply Forall_app. split; [done|]. repeat constructor; done.
      * by rewrite (unpushed_delete_write _ _ _ Hitem).
      * destruct rejection; [done|]. intros _.
        destruct (Hok eq_refl) as [-> Hdone]. split.
        -- by rewrite bind_app, bind_singleton.
        -- rewrite <-Hdone, list_fmap_delete.
           rewrite (delete_Permutation (pendingDefinition <$> items) i d) at 2;
             [|by rewrite list_lookup_fmap, Hitem].
           rewrite app_assoc. by rewrite <-Permutation_cons_append.
      * by destruct rejection; auto.
Qed.

Lemma pool_run w0 items0 sched rejection' w' :
  Forall (addressed (heap w0)) items0 →
  eventLoop sched (task <$> items0) None w0 = (rejection', w') →
  heap w' = heap w0 ∧
  ∃ done order evs,
    trace w' = trace w0 ++ evs ∧
    Forall (isIconEvent dir) evs ∧
    fileNames w' = fileNames w0 ++ (iconFileName <$> order) ∧
    order ≡ₚ items0 ≫= unpushed ∧
    (rejection' = None →
       evs = (done ≫= λ d, [wr d; lg d]) ∧
       done ≡ₚ pendingDefinition <$> items0) ∧
    (neverRejects → rejection' = None).
Proof.
  intros Haddr Hloop.
  eapply (eventLoop_preserves _ (pool_step w0 items0)) in Hloop.
  - destruct Hloop as (Hheap & items & done & order & evs & Hpool & _ & Htr &
      Hevs & Hnames & Hperm & Hok & Hnever).
    symmetry in Hpool. apply fmap_nil_inv in Hpool as ->.
    split; [done|]. exists done, order, evs.
    split_and!; try done.
    by rewrite <-Hperm, app_nil_r.
  - split; [done|]. exists items0, [], [], [].
    split_and!; try done.
    + by rewrite app_nil_r.
    + by rewrite app_nil_r.
    + intros _. by rewrite app_nil_r.
Qed.

End IconPool.

(** ** The two per-icon generators *)

Section Generators.
Context {env : Env}.
Variables outputDirectory iconsFolderName : string.

Local Abbreviation dir := (iconsPath outputDirectory iconsFolderName).
Local Abbreviation svgW := (svgWrite outputDirectory iconsFolderName).
Local Abbreviation svgL := (svgLog outputDirectory iconsFolderName).
Local Abbreviation tsxW := (tsxWrite outputDirectory iconsFolderName).
Local Abbreviation tsxL := (tsxLog outputDirectory iconsFolderName).

Lemma svgTask_generator a d w :
  heap w !! a = Some d →
  resume (svgTask outputDirectory iconsFolderName (AwaitsGenerator a d)) w
  = (Suspended (svgTask outputDirectory iconsFolderName (AwaitsWrite d)),
     pushed (iconFileName d) w).
Proof. done. Qed.

Lemma svgTask_write d w :
  resume (svgTask outputDirectory iconsFolderName (AwaitsWrite d)) w
  = if rejects (trace w) (svgW d) then (Settled (Rejected (Failure (svgW d))), w)
    else (Settled (Resolved ()), emit (svgL d) (emit (svgW d) w)).
Proof.
  simpl. unfold writeFile, call, svgWrite, iconsPath.
  by destruct (rejects _ _).
Qed.

Lemma tsxTask_generator a d w :
  heap w !! a = Some d →
  resume (tsxTask outputDirectory iconsFolderName (AwaitsGenerator a d)) w
  = (Suspended (tsxTask outputDirectory iconsFolderName (AwaitsWrite d)),
     pushed (iconFileName d) w).
Proof. intros Ha. simpl. unfold load. by rewrite Ha. Qed.

Lemma tsxTask_write d w :
  resume (tsxTask outputDirectory iconsFolderName (AwaitsWrite d)) w
  = if rejects (trace w) (tsxW d) then (Settled (Rejected (Failure (tsxW d))), w)
    else (Settled (Resolved ()), emit (tsxL d) (emit (tsxW d) w)).
Proof.
  simpl. unfold writeFile, call, tsxWrite, iconsPath.
  by destruct (rejects _ _).
Qed.

Lemma svg_spawn svgDefinitions ds rejection w :
  Forall2 (λ a d, heap w !! a = Some d) svgDefinitions ds →
  spawn (svgConstantCallback outputDirectory iconsFolderName <$> svgDefinitions)
    rejection w
  = (svgTask outputDirectory iconsFolderName <$> (AwaitsWrite <$> ds), rejection,
     mkWorld (trace w) (heap w) (fileNames w ++ (iconFileName <$> ds))).
Proof.
  remember (heap w) as h eqn:Hh. intros Hall. revert w Hh.
  induction Hall as [|a d refs ds Ha Hall IH]; intros w Hh.
  - destruct w; simpl in *. by rewrite app_nil_r, Hh.
  - rewrite !fmap_cons. simpl. unfold load at 1. rewrite <-Hh, Ha. simpl.
    rewrite IH by done. simpl. by rewrite <-app_assoc.
Qed.

Lemma generateSVGConstants_run svgDefinitions ds w r w' :
  Forall2 (λ a d, heap w !! a = Some d) svgDefinitions ds →
  generateSVGConstants svgDefinitions outputDirectory iconsFolderName w = (r, w') →
  heap w' = heap w ∧
  match r with
  | Resolved generatedFileNames =>
      generatedFileNames = iconFileName <$> ds ∧
      ∃ done, done ≡ₚ ds ∧ trace w' = trace w ++ (done ≫= λ d, [svgW d; svgL d])
  | Rejected _ =>
      ¬ neverRejects ∧
      ∃ evs, trace w' = trace w ++ evs ∧ Forall (isIconEvent dir) evs
  end.
Proof.
  intros Hall Hrun.
  unfold generateSVGConstants, mbind, M_bind, newFileNames, promiseAll, readFileNames in Hrun.
  rewrite (svg_spawn _ ds) in Hrun by done. simpl in Hrun.
  destruct (eventLoop _ _ _ _) as [rejection w1] eqn:Hloop.
  eapply (pool_run svgW svgL (svgTask outputDirectory iconsFolderName) dir) in Hloop
    as (Hheap & done & order & evs & Htr & Hevs & Hnames & Hperm & Hok & Hnever).
  - simpl in *.
    assert (order = []) as ->.
    { apply Permutation_nil_r. rewrite Hperm. clear. by induction ds. }
    destruct rejection as [e|]; simplify_eq/=.
    + split; [done|]. split; [|by eauto]. intros Hn. by specialize (Hnever Hn).
    + destruct (Hok eq_refl) as [-> Hdone]. split; [done|].
      split; [by rewrite Hnames, app_nil_r|].
      exists done. split; [|done]. rewrite Hdone. clear.
      induction ds; simpl; [done|by f_equiv].
  - intros d. by unfold svgWrite.
  - done.
  - apply svgTask_generator.
  - apply svgTask_write.
  - clear. induction ds; simpl; by constructor.
Qed.

Lemma insert_middle {A} (l1 l2 : list A) x y :
  <[length l1 := y]> (l1 ++ x :: l2) = l1 ++ y :: l2.
Proof. induction l1 as [|z l1 IH]; simpl; [done|by rewrite IH]. Qed.

Lemma tsx_spawn ready todo rejection w :
  heap w = ready ++ todo →
  spawn (tsxConstantCallback outputDirectory iconsFolderName
           <$> seq (length ready) (length todo)) rejection w
  = (tsxTask outputDirectory iconsFolderName
       <$> generatorItems (length ready) (capitalizeDefinition <$> todo),
     rejection,
     mkWorld (trace w) (ready ++ (capitalizeDefinition <$> todo)) (fileNames w)).
Proof.
  revert ready w. induction todo as [|d todo IH]; intros ready w Hheap.
  - destruct w; simpl in *. by rewrite Hheap.
  - simpl. unfold load at 1. rewrite Hheap, list_lookup_middle by done. simpl.
    unfold storeVariableName at 1. rewrite Hheap, list_lookup_middle by done. simpl.
    unfold load at 1. simpl. rewrite insert_middle, list_lookup_middle by done. simpl.
    specialize (IH (ready ++ [capitalizeDefinition d])).
    rewrite length_app, Nat.add_1_r in IH.
    rewrite IH; [|by rewrite <-app_assoc]. simpl.
    by rewrite <-app_assoc.
Qed.

Lemma generatorItems_definitions a ds :
  pendingDefinition <$> generatorItems a ds = ds.
Proof. revert a. induction ds as [|d ds IH]; intros a; simpl; [done|by rewrite IH]. Qed.

Lemma generatorItems_unpushed a ds : generatorItems a ds ≫= unpushed = ds.
Proof. revert a. induction ds as [|d ds IH]; intros a; simpl; [done|by rewrite IH]. Qed.

Lemma generatorItems_addressed ready ds :
  Forall (addressed (ready ++ ds)) (generatorItems (length ready) ds).
Proof.
  revert ready. induction ds as [|d ds IH]; intros ready; simpl; constructor.
  - by apply list_lookup_middle.
  - specialize (IH (ready ++ [d])).
    by rewrite length_app, Nat.add_1_r, <-app_assoc in IH.
Qed.

Lemma generateTSXFileConstants_run w r w' :
  generateTSXFileConstants (seq 0 (length (heap w))) outputDirectory iconsFolderName w
  = (r, w') →
  heap w' = capitalizeDefinition <$> heap w ∧
  match r with
  | Resolved generatedFileNames =>
      generatedFileNames ≡ₚ iconFileName <$> heap w ∧
      ∃ done, done ≡ₚ capitalizeDefinition <$> heap w ∧
              trace w' = trace w ++ (done ≫= λ d, [tsxW d; tsxL d])
  | Rejected _ =>
      ¬ neverRejects ∧
      ∃ evs, trace w' = trace w ++ evs ∧ Forall (isIconEvent dir) evs
  end.
Proof.
  intros Hrun.
  unfold generateTSXFileConstants, mbind, M_bind, newFileNames, promiseAll,
    readFileNames in Hrun.
  rewrite (tsx_spawn [] (heap w)) in Hrun by done. simpl in Hrun.
  destruct (eventLoop _ _ _ _) as [rejection w1] eqn:Hloop.
  eapply (pool_run tsxW tsxL (tsxTask outputDirectory iconsFolderName) dir) in Hloop
    as (Hheap & done & order & evs & Htr & Hevs & Hnames & Hperm & Hok & Hnever).
  - simpl in *. rewrite generatorItems_unpushed in Hperm.
    rewrite generatorItems_definitions in Hok.
    destruct rejection as [e|]; simplify_eq/=.
    + split; [done|]. split; [|by eauto]. intros Hn. by specialize (Hnever Hn).
    + destruct (Hok eq_refl) as [-> Hdone]. split; [done|].
      split; [|by eauto].
      rewrite Hnames, Hperm, <-list_fmap_compose. done.
  - intros d. by unfold tsxWrite.
  - done.
  - apply tsxTask_generator.
  - apply tsxTask_write.
  - apply (generatorItems_addressed []).
Qed.

End Generators.

(** ** Monitored stages *)

Section Monitor.
Context {env : Env} (o : FilesConversionOptions).

Lemma bind_run {A B} (m : M A) (f : A → M B) w :
  (m ≫= f) w =
  match m w with
  | (Resolved a, w') => f a w'
  | (Rejected e, w') => (Rejected e, w')
  end.
Proof. done. Qed.

Lemma callAndMonitorAsync_run {A} (fn : M A) label w :
  callAndMonitorAsync fn label w =
  match fn (emit (MonitorStart label) w) with
  | (Resolved a, w1) => (Resolved a, emit (MonitorEnd label) w1)
  | (Rejected e, w1) => (Rejected e, w1)
  end.
Proof.
  unfold callAndMonitorAsync. rewrite bind_run. simpl. rewrite bind_run.
  by destruct (fn _) as [[a|e] w1].
Qed.

Lemma callAndMonitor_run {A} (fn : unit → A) label w :
  callAndMonitor fn label w
  = (Resolved (fn ()), emit (MonitorEnd label) (emit (MonitorStart label) w)).
Proof. done. Qed.

Lemma Staged_single {A} (fn : M A) label full w r w' :
  callAndMonitorAsync fn label w = (r, w') →
  (∀ w1, fn (emit (MonitorStart label) w) = (r, w1) →
         Effects full (emit (MonitorStart label) w) r w1) →
  Staged o [(label, full)] w r w'.
Proof.
  rewrite callAndMonitorAsync_run. intros Hrun Hfn.
  destruct (fn _) as [[a|e] w1]; simplify_eq.
  - specialize (Hfn _ eq_refl). simpl in *.
    rewrite Hfn, app_nil_r, <-!app_assoc. done.
  - destruct (Hfn _ eq_refl) as (partial & ev & rest & -> & Htr & Hrej & _).
    simpl in *. split; [intros Hn; by rewrite Hn in Hrej|].
    exists [], (label, partial ++ ev :: rest), [], partial.
    split_and!; [done| |left; by eexists _, _].
    rewrite Htr, <-app_assoc. done.
Qed.

Lemma Staged_cons {A B} stage sts w (a : A) w1 (r : Outcome B) w2 :
  Staged o [stage] w (Resolved a) w1 →
  Staged o sts w1 r w2 →
  Staged o (stage :: sts) w r w2.
Proof.
  unfold Staged. intros Hs Hr. rewrite bind_singleton in Hs.
  destruct r as [b|e].
  - by rewrite Hr, Hs, bind_cons, app_assoc.
  - destruct Hr as (Hrej & completed & failed & rest & partial & -> & Htr & Hp).
    split; [done|].
    exists (stage :: completed), failed, rest, partial. split_and!; [done| |done].
    by rewrite Htr, Hs, bind_cons, <-!app_assoc.
Qed.

Lemma Staged_app {A B} sts1 sts2 w (a : A) w1 (r : Outcome B) w2 :
  Staged o sts1 w (Resolved a) w1 →
  Staged o sts2 w1 r w2 →
  Staged o (sts1 ++ sts2) w r w2.
Proof.
  unfold Staged. intros Hs Hr.
  destruct r as [b|e].
  - by rewrite Hr, Hs, bind_app, app_assoc.
  - destruct Hr as (Hrej & completed & failed & rest & partial & -> & Htr & Hp).
    split; [done|].
    exists (sts1 ++ completed), failed, rest, partial. split_and!; [|..|done].
    + by rewrite app_assoc.
    + by rewrite Htr, Hs, bind_app, <-!app_assoc.
Qed.

Lemma Staged_rejected {A B} sts1 sts2 w e w1 :
  Staged (A:=A) o sts1 w (Rejected e) w1 →
  Staged (A:=B) o (sts1 ++ sts2) w (Rejected e) w1.
Proof.
  intros (Hrej & completed & failed & rest & partial & -> & Htr & Hp).
  split; [done|].
  exists completed, failed, (rest ++ sts2), partial. split_and!; [|done..].
  by rewrite <-app_assoc.
Qed.

Lemma Staged_nil {A} w (a : A) : Staged o [] w (Resolved a) w.
Proof. unfold Staged. simpl. by rewrite app_nil_r. Qed.

(** A stage that is a single call. *)
Lemma call_effects ev w r w' :
  call ev w = (r, w') → heap w' = heap w ∧ Effects [ev] w r w'.
Proof.
  unfold call. destruct (rejects _ _) eqn:Hrej; intros; simplify_eq; simpl; [|done].
  split; [done|]. exists [], ev, []. split_and!; try done. by rewrite app_nil_r.
Qed.

Lemma monitored_heap {A} (fn : M A) label w r w' :
  callAndMonitorAsync fn label w = (r, w') →
  ∃ w1, fn (emit (MonitorStart label) w) = (r, w1) ∧ heap w' = heap w1.
Proof.
  rewrite callAndMonitorAsync_run. intros Hrun.
  destruct (fn _) as [[a|e] w1]; simplify_eq; by eexists.
Qed.

Lemma monitored_call ev label w r w' :
  callAndMonitorAsync (call ev) label w = (r, w') →
  heap w' = heap w ∧ Staged o [(label, [ev])] w r w'.
Proof.
  intros Hrun. split.
  - apply monitored_heap in Hrun as (w1 & Hfn & ->).
    by apply call_effects in Hfn as [-> _].
  - eapply Staged_single; [done|]. intros w1 Hfn. by apply call_effects in Hfn as [_ ?].
Qed.

End Monitor.

(** ** The stages of [convertToFiles] *)

(** Unfolds the calls of a stage body down to the decisions of the
    environment. *)
Ltac run_calls :=
  unfold mbind, M_bind, mret, M_ret, writeFile, deleteFolder, deleteFiles,
    compileToEsNext, compileToUMD, verboseInfo, error, generationSuccess, call, log;
  simpl.

(** Splits on the next decision of the environment in the goal. *)
Ltac decide_call :=
  match goal with
  | |- context [rejects ?history ?ev] => destruct (rejects history ev) eqn:?; simpl
  end.

(** Closes a goal [Effects full w r w'] once the run has been computed. *)
Ltac solve_effects :=
  simpl;
  first
    [ done
    | by rewrite <-?app_assoc
    | eexists [], _, _; split_and!;
      [reflexivity | by rewrite app_nil_r | eassumption | reflexivity]
    | eexists _, _, _; split_and!;
      [ | rewrite <-?app_assoc; simpl; reflexivity | | reflexivity];
      [reflexivity | eassumption] ].

Section Pipeline.
Context {env : Env} (o : FilesConversionOptions).

Local Abbreviation refs := (seq 0 (length (svgFiles o))).

Lemma lookup_addresses (ready l : list SvgDefinition) :
  Forall2 (λ a d, (ready ++ l) !! a = Some d) (seq (length ready) (length l)) l.
Proof.
  revert ready. induction l as [|d l IH]; intros ready; simpl; constructor.
  - by apply list_lookup_middle.
  - specialize (IH (ready ++ [d])).
    by rewrite length_app, Nat.add_1_r, <-app_assoc in IH.
Qed.

Lemma snapshot_all w :
  snapshot (seq 0 (length (heap w))) w = (Resolved (heap w), w).
Proof.
  unfold snapshot.
  pose proof (mapM_Some_2 _ _ _ (lookup_addresses [] (heap w))) as Hall.
  simpl in Hall. by rewrite Hall.
Qed.

Lemma length_objects : length (objects o) = length (svgFiles o).
Proof. unfold objects. destruct (tsx o); [apply length_fmap|done]. Qed.

Lemma ingestion_staged w r w' :
  callAndMonitorAsync (filesProcessor o) "Processing SVG files" w = (r, w') →
  Staged o [("Processing SVG files", [FilesProcessor o])] w r w' ∧
  match r with
  | Resolved svgDefinitions => svgDefinitions = refs ∧ heap w' = svgFiles o
  | Rejected _ => heap w' = heap w
  end.
Proof.
  intros Hrun. split.
  - eapply Staged_single; [done|]. intros w1. unfold filesProcessor.
    rewrite bind_run. unfold call, allocate.
    destruct (rejects _ _) eqn:Hrej; intros; simplify_eq; simpl; [|done].
    exists [], (FilesProcessor o), []. split_and!; try done. by rewrite app_nil_r.
  - apply monitored_heap in Hrun as (w1 & Hfn & ->).
    unfold filesProcessor in Hfn. rewrite bind_run in Hfn. unfold call, allocate in Hfn.
    destruct (rejects _ _); by simplify_eq.
Qed.

Lemma icons_staged w r w' :
  heap w = svgFiles o →
  (if tsx o
   then callAndMonitorAsync
          (generateTSXFileConstants refs (outputDirectory o) (iconsFolderName o))
          "Generate TSX constants"
   else callAndMonitorAsync
          (generateSVGConstants refs (outputDirectory o) (iconsFolderName o))
          "Generate SVG constants") w = (r, w') →
  heap w' = objects o ∧
  match r with
  | Resolved generatedFileNames =>
      generatedFileNames ≡ₚ iconFileName <$> svgFiles o ∧
      (tsx o = false → generatedFileNames = iconFileName <$> svgFiles o) ∧
      ∃ done, done ≡ₚ objects o ∧ Staged o [(iconLabel o, iconEvents o done)] w r w'
  | Rejected _ =>
      ¬ neverRejects ∧ ∀ done, Staged o [(iconLabel o, iconEvents o done)] w r w'
  end.
Proof.
  intros Hheap. unfold objects, iconLabel, iconEvents, Staged, stagePartial, iconLabel.
  destruct (tsx o); rewrite callAndMonitorAsync_run.
  - destruct (generateTSXFileConstants _ _ _ _) as [r1 w1] eqn:Hgen.
    rewrite <-Hheap in Hgen.
    change (heap w) with (heap (emit (MonitorStart "Generate TSX constants") w)) in Hgen.
    apply generateTSXFileConstants_run in Hgen as [Hh Hr]. simpl in Hh, Hr.
    rewrite Hheap in Hh, Hr.
    destruct r1 as [names|e]; intros; simplify_eq.
    + destruct Hr as (Hnames & done & Hdone & Htr).
      split; [done|]. split_and!; [done|done|].
      exists done. split; [done|]. simpl.
      rewrite Htr, app_nil_r, <-!app_assoc. done.
    + destruct Hr as (Hrej & evs & Htr & Hevs).
      split; [done|]. split; [done|]. intros done. split; [done|].
      eexists [], (_, _), [], evs. split_and!; [done| |by right].
      simpl. by rewrite Htr, <-app_assoc.
  - destruct (generateSVGConstants _ _ _ _) as [r1 w1] eqn:Hgen.
    eapply (generateSVGConstants_run _ _ _ (svgFiles o)) in Hgen as [Hh Hr].
    2:{ simpl. rewrite Hheap. apply (lookup_addresses []). }
    simpl in Hh, Hr.
    destruct r1 as [names|e]; intros; simplify_eq.
    + destruct Hr as (Hnames & done & Hdone & Htr).
      split; [simpl; congruence|]. split_and!; [by rewrite Hnames|done|].
      exists done. split; [done|]. simpl.
      rewrite Htr, app_nil_r, <-!app_assoc. done.
    + destruct Hr as (Hrej & evs & Htr & Hevs).
      split; [simpl; congruence|]. split; [done|]. intros done. split; [done|].
      eexists [], (_, _), [], evs. split_and!; [done| |by right].
      simpl. by rewrite Htr, <-app_assoc.
Qed.

Lemma snapshot_objects w :
  heap w = objects o → snapshot refs w = (Resolved (objects o), w).
Proof. intros Hheap. rewrite <-length_objects, <-Hheap. apply snapshot_all. Qed.

Lemma generateCompleteIconSet_effects w r w' :
  heap w = objects o →
  generateCompleteIconSet refs (outputDirectory o) (iconsFolderName o)
    (completeIconSetName o) (interfaceName o) (modelFileName o) (generateType o)
    (tsx o) w = (r, w') →
  heap w' = heap w ∧ Effects [completeIconSetWrite o] w r w'.
Proof.
  intros Hheap. unfold generateCompleteIconSet.
  rewrite bind_run, snapshot_objects by done.
  apply call_effects.
Qed.

Lemma completeIconSet_staged names w r w' :
  heap w = objects o →
  (if exportCompleteIconSet o
   then callAndMonitorAsync
          (generateCompleteIconSet refs (outputDirectory o) (iconsFolderName o)
             (completeIconSetName o) (interfaceName o) (modelFileName o)
             (generateType o) (tsx o))
          "Export complete icon set";;
        mret (names ++ [completeIconSetName o])
   else mret names) w = (r, w') →
  heap w' = heap w ∧
  Staged o (if exportCompleteIconSet o
            then [("Export complete icon set", [completeIconSetWrite o])] else [])
    w r w' ∧
  ∀ x, r = Resolved x → x = exportedNames o names.
Proof.
  intros Hheap. unfold exportedNames.
  destruct (exportCompleteIconSet o).
  - rewrite bind_run.
    destruct (callAndMonitorAsync _ _ _) as [r1 w1] eqn:Hmon. intros Hrun.
    assert (heap w1 = heap w ∧
            Staged o [("Export complete icon set", [completeIconSetWrite o])] w r1 w1)
      as [Hh Hst].
    { split.
      - apply monitored_heap in Hmon as (w2 & Hfn & ->).
        by apply generateCompleteIconSet_effects in Hfn as [-> _].
      - eapply Staged_single; [done|]. intros w2 Hfn.
        by apply generateCompleteIconSet_effects in Hfn as [_ ?]. }
    unfold mret, M_ret in Hrun.
    destruct r1 as [[]|e]; simplify_eq; split_and!; try done.
    by intros x [= <-].
  - intros [= <- <-]. split_and!; [done|apply Staged_nil|].
    intros x [= <-]. by rewrite app_nil_r.
Qed.

Lemma generateModelFile_effects w r w' :
  heap w = objects o →
  generateModelFile o refs w = (r, w') →
  heap w' = heap w ∧ Effects (modelEffects o) w r w' ∧
  ∀ x, r = Resolved x → x = modelFileContent o.
Proof.
  intros Hheap. unfold generateModelFile.
  rewrite bind_run, snapshot_objects by done.
  unfold modelEffects, modelWrite, additionalModelWrite, modelFileContent, iconsPath.
  run_calls.
  destruct (truthy (additionalModelOutputPath o)); simpl;
    repeat decide_call;
    intros [= <- <-]; (split_and!; [done|solve_effects|]);
    first [done|by intros x [= <-]].
Qed.

Lemma model_staged w r w' :
  heap w = objects o →
  (if truthy (modelFileName o)
   then modelFile ← callAndMonitorAsync (generateModelFile o refs) "Generate model file";
        if truthy (additionalModelOutputPath o)
        then callAndMonitorAsync
               (writeFile (interpolate (additionalModelOutputPath o)) (modelFileName o)
                  modelFile None)
               "Write model file to additional output path"
        else mret ()
   else mret ()) w = (r, w') →
  heap w' = heap w ∧
  Staged o
    (if truthy (modelFileName o)
     then ("Generate model file", modelEffects o) ::
          (if truthy (additionalModelOutputPath o)
           then [("Write model file to additional output path",
                  [additionalModelWrite o])]
           else [])
     else []) w r w'.
Proof.
  intros Hheap.
  destruct (truthy (modelFileName o)); [|intros [= <- <-]; split; [done|apply Staged_nil]].
  rewrite bind_run.
  destruct (callAndMonitorAsync _ _ _) as [r1 w1] eqn:Hmon. intros Hrun.
  assert (heap w1 = heap w ∧
          Staged o [("Generate model file", modelEffects o)] w r1 w1 ∧
          ∀ x, r1 = Resolved x → x = modelFileContent o) as (Hh & Hst & Hx).
  { split_and!.
    - apply monitored_heap in Hmon as (w2 & Hfn & ->).
      by apply generateModelFile_effects in Hfn as [-> _].
    - eapply Staged_single; [done|]. intros w2 Hfn.
      by apply generateModelFile_effects in Hfn as (_ & ? & _).
    - apply monitored_heap in Hmon as (w2 & Hfn & _).
      by apply generateModelFile_effects in Hfn as (_ & _ & ?). }
  destruct r1 as [modelFile|e]; simplify_eq.
  - rewrite (Hx _ eq_refl) in Hrun.
    destruct (truthy (additionalModelOutputPath o)).
    + apply (monitored_call o) in Hrun as [Hh' Hst'].
      split; [congruence|]. by eapply Staged_cons.
    + unfold mret, M_ret in Hrun. simplify_eq. split; [done|]. exact Hst.
  - split; [done|]. by apply (Staged_rejected (A:=string) o [_]).
Qed.

Lemma compileTypeScriptToJS_effects w r w' :
  compileTypeScriptToJS (outputDirectory o) (iconsFolderName o) (barrelFileName o)
    (compilationOutput o) w = (r, w') →
  heap w' = heap w ∧
  Effects (compileEffects o (matchingPaths (trace w) (compilePatterns o))) w r w'.
Proof.
  unfold compileTypeScriptToJS, compileEffects. rewrite bind_run.
  unfold getFilePathsFromRegex, compilePatterns, invalidOutputMessage.
  destruct (rejects _ _) eqn:?.
  { intros [= <- <-]. split; [done|solve_effects]. }
  destruct (compilationOutput o); run_calls;
    repeat decide_call;
    intros [= <- <-]; (split; [done|solve_effects]).
Qed.

Lemma compile_staged w r w' :
  (if compileSources o
   then callAndMonitorAsync
          (compileTypeScriptToJS (outputDirectory o) (iconsFolderName o)
             (barrelFileName o) (compilationOutput o))
          "Compile TypeScript to JavaScript"
   else mret ()) w = (r, w') →
  heap w' = heap w ∧
  ∃ paths,
    Staged o (if compileSources o
              then [("Compile TypeScript to JavaScript", compileEffects o paths)]
              else []) w r w'.
Proof.
  destruct (compileSources o).
  - intros Hmon. split.
    + apply monitored_heap in Hmon as (w2 & Hfn & ->).
      by apply compileTypeScriptToJS_effects in Hfn as [-> _].
    + eexists. eapply Staged_single; [done|]. intros w2 Hfn.
      by apply compileTypeScriptToJS_effects in Hfn as [_ ?].
  - intros [= <- <-]. split; [done|]. exists []. apply Staged_nil.
Qed.

End Pipeline.

(** ** Every run of [convertToFiles] *)

Section Runs.
Context {env : Env} (o : FilesConversionOptions).

Lemma convertToFiles_run w0 r w :
  convertToFiles o w0 = (r, w) → Run o w0 r w.
Proof.
  unfold convertToFiles. cbv zeta. intros Hrun.
  (* delete the output folder *)
  rewrite bind_run in Hrun.
  destruct (callAndMonitorAsync (deleteFolder _) _ w0) as [r1 w1] eqn:H1.
  apply (monitored_call o) in H1 as [Hh1 S1].
  destruct r1 as [[]|e]; simplify_eq.
  2:{ exists (objects o), (iconFileName <$> svgFiles o), [].
      split_and!; [done|done|done|right; split; [done|by eexists]|].
      by apply (Staged_rejected (A:=unit) o [_]). }
  (* process the SVG files *)
  rewrite bind_run in Hrun.
  destruct (callAndMonitorAsync (filesProcessor o) _ w1) as [r2 w2] eqn:H2.
  apply (ingestion_staged o) in H2 as [S2 Hh2].
  destruct r2 as [svgDefinitions|e]; simplify_eq.
  2:{ exists (objects o), (iconFileName <$> svgFiles o), [].
      split_and!; [done|done|done|right; split; [congruence|by eexists]|].
      eapply Staged_cons; [done|]. by apply (Staged_rejected (A:=list nat) o [_]). }
  destruct Hh2 as [-> Hh2].
  (* generate the constants *)
  rewrite bind_run in Hrun.
  match type of Hrun with
  | match ?m w2 with _ => _ end = _ => destruct (m w2) as [r3 w3] eqn:H3
  end.
  apply (icons_staged o) in H3 as [Hh3 S3]; [|done].
  destruct r3 as [generatedFileNames|e]; simplify_eq.
  2:{ destruct S3 as [_ S3].
      exists (objects o), (iconFileName <$> svgFiles o), [].
      split_and!; [done|done|done|by left|].
      eapply Staged_cons; [done|]. eapply Staged_cons; [done|].
      apply (Staged_rejected (A:=list string) o [_]), S3. }
  destruct S3 as (Hnames & Hsvg & done & Hdone & S3).
  (* export the complete icon set *)
  rewrite bind_run in Hrun.
  match type of Hrun with
  | match ?m w3 with _ => _ end = _ => destruct (m w3) as [r4 w4] eqn:H4
  end.
  apply (completeIconSet_staged o) in H4 as (Hh4 & S4 & Hx4); [|done].
  destruct r4 as [exported|e]; simplify_eq.
  2:{ exists done, generatedFileNames, [].
      split_and!; [done|done|done|left; congruence|].
      eapply Staged_cons; [done|]. eapply Staged_cons; [done|].
      eapply Staged_cons; [done|].
      by apply (Staged_rejected (A:=list string) o). }
  rewrite (Hx4 _ eq_refl) in Hrun. clear Hx4.
  (* the type helper and the barrel file *)
  rewrite bind_run, callAndMonitor_run in Hrun. rewrite bind_run in Hrun.
  match type of Hrun with
  | match callAndMonitorAsync ?m ?l ?w5 with _ => _ end = _ =>
      destruct (callAndMonitorAsync m l w5) as [r6 w6] eqn:H6
  end.
  apply (monitored_call o) in H6 as [Hh6 S6].
  assert (Staged o [("Generate Type Helper", [])] w4 (Resolved ())
            (emit (MonitorEnd "Generate Type Helper")
               (emit (MonitorStart "Generate Type Helper") w4))) as S5.
  { unfold Staged. simpl. by rewrite <-app_assoc. }
  destruct r6 as [[]|e]; simplify_eq.
  2:{ exists done, generatedFileNames, [].
      split_and!; [done|done|done|left; simpl in *; congruence|].
      eapply Staged_cons; [done|]. eapply Staged_cons; [done|].
      eapply Staged_cons; [done|]. eapply Staged_app; [done|].
      eapply Staged_cons; [done|].
      apply (Staged_rejected (A:=unit) o [_]), S6. }
  (* the model file *)
  rewrite bind_run in Hrun.
  match type of Hrun with
  | match ?m w6 with _ => _ end = _ => destruct (m w6) as [r7 w7] eqn:H7
  end.
  apply (model_staged o) in H7 as (Hh7 & S7); [|simpl in *; congruence].
  destruct r7 as [[]|e]; simplify_eq.
  2:{ exists done, generatedFileNames, [].
      split_and!; [done|done|done|left; simpl in *; congruence|].
      eapply Staged_cons; [done|]. eapply Staged_cons; [done|].
      eapply Staged_cons; [done|]. eapply Staged_app; [done|].
      eapply Staged_cons; [done|]. eapply Staged_cons; [exact S6|].
      by apply (Staged_rejected (A:=unit) o). }
  (* the compiler *)
  rewrite bind_run in Hrun.
  match type of Hrun with
  | match ?m w7 with _ => _ end = _ => destruct (m w7) as [r8 w8] eqn:H8
  end.
  apply (compile_staged o) in H8 as (Hh8 & paths & S8).
  exists done, generatedFileNames, paths.
  assert (Staged o (stages o done generatedFileNames paths) w0 r8 w8) as Hall.
  { eapply Staged_cons; [done|]. eapply Staged_cons; [done|].
    eapply Staged_cons; [done|]. eapply Staged_app; [done|].
    eapply Staged_cons; [done|]. eapply Staged_cons; [exact S6|].
    eapply Staged_app; [exact S7|]. exact S8. }
  unfold generationSuccess, log in Hrun.
  destruct r8 as [[]|e]; simplify_eq.
  - split_and!; [done|done|done|left; simpl in *; congruence|].
    simpl. unfold Staged in Hall. by rewrite Hall, <-app_assoc.
  - split_and!; [done|done|done|left; simpl in *; congruence|done].
Qed.

End Runs.

(** ** Where a stage lies in the trace of a run *)

Section Position.
Context {env : Env} (o : FilesConversionOptions).

Lemma skip_calls (calls rest before after : list Event) label :
  Forall isCall calls →
  calls ++ rest = before ++ MonitorStart label :: after →
  ∃ before', before = calls ++ before' ∧ rest = before' ++ MonitorStart label :: after.
Proof.
  intros Hcalls. revert before.
  induction Hcalls as [|ev calls Hev Hcalls IH]; intros before Heq; simpl in *.
  - by exists before.
  - destruct before as [|b before]; simplify_eq/=; [done|].
    destruct (IH _ H0) as (before' & -> & ->). by exists before'.
Qed.

Lemma brackets_split (completed : list (string * list Event)) tail before label after :
  Forall (λ st, Forall isCall st.2) completed →
  (completed ≫= bracket) ++ tail = before ++ MonitorStart label :: after →
  (∃ earlier st later,
      completed = earlier ++ st :: later ∧ st.1 = label ∧
      before = earlier ≫= bracket ∧
      after = st.2 ++ MonitorEnd label :: (later ≫= bracket) ++ tail)
  ∨ (∃ before',
      before = (completed ≫= bracket) ++ before' ∧
      tail = before' ++ MonitorStart label :: after).
Proof.
  intros Hcalls. revert before.
  induction Hcalls as [|st completed Hst Hcalls IH]; intros before Heq.
  - right. by exists before.
  - rewrite bind_cons in Heq. unfold bracket at 1 in Heq. simpl in Heq.
    destruct before as [|b before]; simplify_eq/=.
    + left. exists [], st, completed. split_and!; try done.
      by rewrite <-!app_assoc.
    + rewrite <-!app_assoc in H0.
      apply skip_calls in H0 as (before1 & -> & Hrest); [|done].
      simpl in Hrest. destruct before1 as [|b before1]; simplify_eq/=.
      destruct (IH _ H0) as
        [(earlier & st' & later & -> & Hl & -> & ->)|(before' & -> & ->)].
      * left. exists (st :: earlier), st', later. split_and!; try done.
        rewrite ?bind_cons. unfold bracket. simpl. by rewrite <-?app_assoc.
      * right. exists before'. split; [|done].
        rewrite ?bind_cons. unfold bracket. simpl. by rewrite <-?app_assoc.
Qed.

Lemma iconEvents_calls done : Forall isCall (iconEvents o done).
Proof.
  unfold iconEvents. destruct (tsx o);
    induction done as [|d done IH]; simpl; repeat constructor; done.
Qed.

Lemma stages_calls done names paths :
  Forall (λ st, Forall isCall st.2) (stages o done names paths).
Proof.
  unfold stages, modelEffects, compileEffects.
  repeat first
    [ apply Forall_app; split
    | apply Forall_cons; split
    | apply Forall_nil_2
    | apply iconEvents_calls
    | done
    | match goal with |- Forall _ (if ?b then _ else _) => destruct b end
    | match goal with |- Forall _ (match ?c with _ => _ end) => destruct c end ];
    simpl; repeat constructor.
Qed.

Lemma isIconEvent_call directory ev : isIconEvent directory ev → isCall ev.
Proof. by destruct ev. Qed.

Lemma stagePartial_calls st partial :
  Forall isCall st.2 → stagePartial o st partial → Forall isCall partial.
Proof.
  intros Hst [(ev & rest & Hpre)|[_ Hicon]].
  - rewrite Hpre in Hst. by apply Forall_app in Hst as [? _].
  - eapply Forall_impl; [done|]. apply isIconEvent_call.
Qed.

(** Every start mark in the trace of a run is the start of a stage of
    the list, the stages before it have completed, and the stage itself
    has completed or is the one that failed. *)
Lemma run_stage w0 r w :
  convertToFiles o w0 = (r, w) →
  ∃ done names paths,
    done ≡ₚ objects o ∧
    names ≡ₚ iconFileName <$> svgFiles o ∧
    (tsx o = false → names = iconFileName <$> svgFiles o) ∧
    ∀ before label after,
      trace w = trace w0 ++ before ++ MonitorStart label :: after →
      ∃ earlier st later,
        stages o done names paths = earlier ++ st :: later ∧
        st.1 = label ∧
        before = earlier ≫= bracket ∧
        ((∃ after', after = st.2 ++ MonitorEnd label :: after') ∨
         (stagePartial o st after ∧ ∃ e, r = Rejected e)).
Proof.
  intros Hrun. apply convertToFiles_run in Hrun
    as (done & names & paths & Hdone & Hnames & Hsvg & _ & Hr).
  exists done, names, paths. split_and!; try done.
  intros before label after Htr.
  pose proof (stages_calls done names paths) as Hcalls.
  destruct r as [[]|e].
  - rewrite Htr in Hr. apply app_inv_head in Hr.
    symmetry in Hr. apply brackets_split in Hr
      as [(earlier & st & later & Hst & Hl & -> & ->)|(before' & -> & Htail)]; [| |done].
    + exists earlier, st, later. split_and!; try done. left. by eexists.
    + destruct before' as [|b [|b' before']]; simplify_eq/=.
  - destruct Hr as (_ & completed & failed & rest & partial & Hst & Htr' & Hpartial).
    rewrite Htr in Htr'. apply app_inv_head in Htr'.
    rewrite Hst in Hcalls. apply Forall_app in Hcalls as [Hc1 Hc2].
    apply Forall_cons in Hc2 as [Hf Hc2].
    symmetry in Htr'. apply brackets_split in Htr'
      as [(earlier & st & later & -> & Hl & -> & ->)|(before' & -> & Htail)]; [| |done].
    + exists earlier, st, (later ++ failed :: rest).
      split_and!; try done; [by rewrite Hst, <-app_assoc|].
      left. by eexists.
    + destruct before' as [|b before']; simplify_eq/=.
      * exists completed, failed, rest. rewrite app_nil_r.
        split_and!; try done. right. split; [done|]. by eexists.
      * pose proof (stagePartial_calls _ _ Hf Hpartial) as Hp.
        apply Forall_app in Hp as [_ Hp]. by apply Forall_cons in Hp as [? _].
Qed.

End Position.

(** ** Which stage a label names *)

Section Labels.
Context {env : Env} (o : FilesConversionOptions).

(** Walks through [Hst : stages ... = earlier ++ st :: later] and leaves
    the positions at which the label of [st], given by [Hl], fits. *)
Ltac locate_stage Hst Hl earlier :=
  simpl in Hst;
  lazymatch type of Hst with
  | (if ?b then _ else _) ++ _ = _ => destruct b eqn:?; locate_stage Hst Hl earlier
  | (if ?b then _ else _) = _ => destruct b eqn:?; locate_stage Hst Hl earlier
  | [] = _ => destruct earlier; discriminate Hst
  | _ :: _ = _ =>
      destruct earlier as [|? earlier];
      [ injection Hst as <- Hst; simpl in Hl;
        try (destruct (tsx o); discriminate Hl); try discriminate Hl
      | injection Hst as <- Hst; locate_stage Hst Hl earlier ]
  end.

Lemma stage_barrel done names paths earlier st later :
  stages o done names paths = earlier ++ st :: later →
  st.1 = "Generate barrel file" →
  st.2 = [barrelWrite o names] ∧
  earlier =
    [("Deleting the output folder",
      [DeleteFolder (iconsPath (outputDirectory o) (iconsFolderName o))]);
     ("Processing SVG files", [FilesProcessor o]);
     (iconLabel o, iconEvents o done)] ++
    (if exportCompleteIconSet o
     then [("Export complete icon set", [completeIconSetWrite o])] else []) ++
    [("Generate Type Helper", [])].
Proof.
  intros Hst Hl. unfold stages, iconLabel in Hst. locate_stage Hst Hl earlier; done.
Qed.

Lemma stage_additional done names paths earlier st later :
  stages o done names paths = earlier ++ st :: later →
  st.1 = "Write model file to additional output path" →
  truthy (modelFileName o) = true ∧
  truthy (additionalModelOutputPath o) = true ∧
  st.2 = [additionalModelWrite o] ∧
  ∃ earlier', earlier = earlier' ++ [("Generate model file", modelEffects o)].
Proof.
  intros Hst Hl. unfold stages, iconLabel in Hst. locate_stage Hst Hl earlier;
    (split_and!; [done..|]).
  - by eexists [_; _; _; _; _; _].
  - by eexists [_; _; _; _; _].
Qed.

Lemma brackets_middle (earlier : list (string * list Event)) st later tail :
  ((earlier ++ st :: later) ≫= bracket) ++ tail
  = (earlier ≫= bracket) ++
    MonitorStart st.1 :: st.2 ++ MonitorEnd st.1 :: (later ≫= bracket) ++ tail.
Proof.
  rewrite bind_app, bind_cons. unfold bracket at 2. simpl.
  rewrite <-!app_assoc. simpl. by rewrite <-!app_assoc.
Qed.

Lemma stages_barrel done names paths :
  ∃ earlier later,
    stages o done names paths
    = earlier ++ ("Generate barrel file", [barrelWrite o names]) :: later.
Proof.
  unfold stages.
  exists ([("Deleting the output folder",
            [DeleteFolder (iconsPath (outputDirectory o) (iconsFolderName o))]);
           ("Processing SVG files", [FilesProcessor o]);
           (iconLabel o, iconEvents o done)] ++
          (if exportCompleteIconSet o
           then [("Export complete icon set", [completeIconSetWrite o])] else []) ++
          [("Generate Type Helper", [])]).
  eexists. rewrite <-2!app_assoc. reflexivity.
Qed.

Lemma stages_additional done names paths :
  truthy (modelFileName o) = true →
  truthy (additionalModelOutputPath o) = true →
  ∃ earlier later,
    stages o done names paths
    = earlier ++ ("Generate model file", modelEffects o) ::
      ("Write model file to additional output path", [additionalModelWrite o]) ::
      later.
Proof.
  intros Hm Ha. unfold stages. rewrite Hm, Ha.
  exists ([("Deleting the output folder",
            [DeleteFolder (iconsPath (outputDirectory o) (iconsFolderName o))]);
           ("Processing SVG files", [FilesProcessor o]);
           (iconLabel o, iconEvents o done)] ++
          (if exportCompleteIconSet o
           then [("Export complete icon set", [completeIconSetWrite o])] else []) ++
          [("Generate Type Helper", []); ("Generate barrel file", [barrelWrite o names])]).
  eexists. rewrite <-2!app_assoc. reflexivity.
Qed.

Lemma append_assoc (a b c : string) : (a +:+ b) +:+ c = a +:+ b +:+ c.
Proof.
  induction a as [|x a IH]; [done|].
  change (String x ((a +:+ b) +:+ c) = String x (a +:+ b +:+ c)). by rewrite IH.
Qed.

Lemma stages_compile_last done names paths :
  compileSources o = true →
  ∃ earlier,
    stages o done names paths
    = earlier ++ [("Compile TypeScript to JavaScript", compileEffects o paths)].
Proof.
  intros Hc. unfold stages. rewrite Hc.
  exists ([("Deleting the output folder",
            [DeleteFolder (iconsPath (outputDirectory o) (iconsFolderName o))]);
           ("Processing SVG files", [FilesProcessor o]);
           (iconLabel o, iconEvents o done)] ++
          (if exportCompleteIconSet o
           then [("Export complete icon set", [completeIconSetWrite o])] else []) ++
          [("Generate Type Helper", []); ("Generate barrel file", [barrelWrite o names])] ++
          (if truthy (modelFileName o)
           then ("Generate model file", modelEffects o) ::
                (if truthy (additionalModelOutputPath o)
                 then [("Write model file to additional output path",
                        [additionalModelWrite o])]
                 else [])
           else [])).
  by rewrite <-3!app_assoc.
Qed.

(** A resolved run with compilation enabled ends with the compilation
    stage and the success log line. *)
Lemma run_compile_last w0 w :
  convertToFiles o w0 = (Resolved (), w) →
  compileSources o = true →
  ∃ before paths,
    trace w = trace w0 ++ before ++
      MonitorStart "Compile TypeScript to JavaScript" :: compileEffects o paths ++
      [MonitorEnd "Compile TypeScript to JavaScript";
       LoggerGenerationSuccess (outputDirectory o)].
Proof.
  intros Hrun Hc. apply convertToFiles_run in Hrun
    as (done & names & paths & _ & _ & _ & _ & ->).
  destruct (stages_compile_last done names paths Hc) as [earlier ->].
  rewrite brackets_middle. by eexists _, _.
Qed.

Lemma run_resolves w0 :
  neverRejects → ∃ w, convertToFiles o w0 = (Resolved (), w).
Proof.
  intros Hn. destruct (convertToFiles o w0) as [[[]|e] w] eqn:Hrun; [by eexists|].
  apply convertToFiles_run in Hrun as (_ & _ & _ & _ & _ & _ & _ & Hrej & _).
  by destruct Hrej.
Qed.

Lemma elem_of_brackets (sts : list (string * list Event)) st ev :
  st ∈ sts → ev ∈ st.2 → ev ∈ sts ≫= bracket.
Proof.
  intros Hst Hev. apply list_elem_of_bind. exists st. split; [|done].
  unfold bracket. apply elem_of_cons. right. apply elem_of_app. by left.
Qed.

(** Every object whose write is part of the per-icon stage has its file
    in the icons folder. *)
Lemma iconEvents_written done d :
  d ∈ done →
  ∃ content fileType,
    WriteFile (iconsPath (outputDirectory o) (iconsFolderName o))
      (Some (iconFileName d)) content fileType ∈ iconEvents o done.
Proof.
  intros Hd. unfold iconEvents. destruct (tsx o); eexists _, _;
    (apply list_elem_of_bind; exists d; split; [|done]);
    apply list_elem_of_here.
Qed.

Lemma objects_names name :
  name ∈ iconFileName <$> svgFiles o →
  ∃ d, d ∈ objects o ∧ iconFileName d = name.
Proof.
  intros (d & -> & Hd)%list_elem_of_fmap. unfold objects. destruct (tsx o).
  - exists (capitalizeDefinition d). split; [|done]. by apply list_elem_of_fmap_2.
  - by exists d.
Qed.

End Labels.

(** ** Concrete runs *)

(** The second write settles first: the names are returned in the order
    of the array, the writes are traced in the order in which they
    settle. *)
Example svg_constants_second_settles_first :
  let '(r, w) :=
    generateSVGConstants (env := demoEnv noRejection [1]) [0; 1] "out" "icons"
      demoWorld in
  r = Resolved ["nav-home.icon"; "nav-back.icon"] ∧
  trace w =
    [WriteFile "out/icons" (Some "nav-back.icon")
       "export const navBack: navBack = <svg>b</svg>;" None;
     LoggerVerboseInfo "write file svg: out/icons/nav-back.icon.ts";
     WriteFile "out/icons" (Some "nav-home.icon")
       "export const navHome: navHome = <svg>h</svg>;" None;
     LoggerVerboseInfo "write file svg: out/icons/nav-home.icon.ts"].
Proof. vm_compute. done. Qed.

(** On the TSX path a name is pushed when the generator of its callback
    has settled: here the second generator settles first. *)
Example tsx_constants_second_generator_first :
  let '(r, w) :=
    generateTSXFileConstants (env := demoEnv noRejection [1; 0; 0]) [0; 1] "out"
      "icons" demoWorld in
  r = Resolved ["nav-back.icon"; "nav-home.icon"] ∧
  variableName <$> heap w = ["NavHome"; "NavBack"] ∧
  trace w =
    [WriteFile "out/icons" (Some "nav-home.icon")
       "export const NavHome = () => <svg>h</svg>;" (Some TSX);
     LoggerVerboseInfo "write file svg: out/icons/nav-home.icon.tsx";
     WriteFile "out/icons" (Some "nav-back.icon")
       "export const NavBack = () => <svg>b</svg>;" (Some TSX);
     LoggerVerboseInfo "write file svg: out/icons/nav-back.icon.tsx"].
Proof. vm_compute. done. Qed.

(** A rejected write rejects the generator; the other write is made all
    the same. *)
Example svg_constants_rejected_write :
  let '(r, w) :=
    generateSVGConstants (env := demoEnv (rejectWriteOf "nav-home.icon") []) [0; 1]
      "out" "icons" demoWorld in
  r = Rejected (Failure (WriteFile "out/icons" (Some "nav-home.icon")
                           "export const navHome: navHome = <svg>h</svg>;" None)) ∧
  trace w =
    [WriteFile "out/icons" (Some "nav-back.icon")
       "export const navBack: navBack = <svg>b</svg>;" None;
     LoggerVerboseInfo "write file svg: out/icons/nav-back.icon.ts"].
Proof. vm_compute. done. Qed.

(** When the write of the barrel file is rejected nothing follows the
    start of its stage. *)
Example barrel_write_rejected :
  let '(r, w) :=
    convertToFiles (env := demoEnv (rejectWriteOf "index") [])
      (demoOptions false ESM) freshWorld in
  (∃ content,
     r = Rejected (Failure (WriteFile "out" (Some "index") content None))) ∧
  last (trace w) = Some (MonitorStart "Generate barrel file").
Proof. vm_compute. split; [by eexists|done]. Qed.

(** ** The expression that capitalises a variable name *)



(** * The claims *)

Section Claims.
Context {env : Env}.


(** C1.  Whenever the barrel stage starts, its write is the next event,
    unless that write is rejected, in which case nothing follows and the
    run is rejected: the write is that of the file [barrelFileName] in
    the output directory, whose content is the type-helper import, then
    one export statement per generated file name (the per-icon names as
    pushed, then the complete icon set name when enabled), then the
    export statement of the model file name.  A run that resolves has
    made this write. *)
Theorem barrel_file_content (o : FilesConversionOptions) (w0 : World) :
  let '(r, w) := convertToFiles o w0 in
  ∃ names,
    names ≡ₚ iconFileName <$> svgFiles o ∧
    (tsx o = false → names = iconFileName <$> svgFiles o) ∧
    let exported :=
      names ++ (if exportCompleteIconSet o then [completeIconSetName o] else []) in
    let content :=
      (generateTypeHelperWithImport (interfaceName o) (iconsFolderName o)
         (modelFileName o) +:+
       String.concat ""
         ((λ generatedFileName,
             generateExportStatement (Some generatedFileName) (iconsFolderName o))
          <$> exported)) +:+
      generateExportStatement (modelFileName o) (iconsFolderName o) in
    let write :=
      WriteFile (outputDirectory o) (Some (barrelFileName o)) content None in
    (∀ before after,
       trace w = trace w0 ++ before ++ MonitorStart "Generate barrel file" :: after →
       (after = [] ∧ ∃ e, r = Rejected e) ∨
       ∃ after', after = write :: MonitorEnd "Generate barrel file" :: after') ∧
    (r = Resolved () →
     ∃ before after',
       trace w = trace w0 ++ before ++
         MonitorStart "Generate barrel file" :: write ::
         MonitorEnd "Generate barrel file" :: after').
Proof.
  destruct (convertToFiles o w0) as [r w] eqn:Hrun.
  pose proof (convertToFiles_run _ _ _ _ Hrun)
    as (done' & names' & paths' & _ & _ & _ & _ & Hr).
  apply run_stage in Hrun as (done & names & paths & Hdone & Hnames & Hsvg & Hsplit).
  exists names. split_and!; [done|done|]. cbv zeta.
  match goal with |- ?first ∧ _ => assert first as Hfirst end.
  { intros before after Htr.
    destruct (Hsplit _ _ _ Htr) as (earlier & st & later & Hst & Hl & -> & Hafter).
    pose proof (stage_barrel _ _ _ _ _ _ _ Hst Hl) as [Hw _].
    destruct Hafter as [[after' ->]|[[(ev & rest & Hp)|[Hicon _]] Hrej]].
    - right. exists after'. by rewrite Hw.
    - left. rewrite Hw in Hp. split; [|done]. by destruct after as [|? [|? ?]].
    - rewrite Hl in Hicon. unfold iconLabel in Hicon. by destruct (tsx o). }
  split; [done|].
  intros ->. rewrite Hr in Hfirst |- *.
  destruct (stages_barrel o done' names' paths') as (earlier & later & Hst).
  rewrite Hst, brackets_middle in Hfirst |- *.
  destruct (Hfirst _ _ eq_refl) as [[_ [e He]]|[after' Hafter]]; [done|].
  exists (earlier ≫= bracket), after'. simpl in Hafter |- *. by rewrite Hafter.
Qed.

(** C8.  Whenever the barrel stage starts, every name that the barrel
    file is about to export from the generated file names has been
    written into the icons folder by a call that completed before: the
    per-icon names by their callbacks, the complete icon set name by its
    stage. *)
Theorem exported_names_written (o : FilesConversionOptions) (w0 : World) :
  let '(r, w) := convertToFiles o w0 in
  ∃ names,
    names ≡ₚ iconFileName <$> svgFiles o ∧
    let exported :=
      names ++ (if exportCompleteIconSet o then [completeIconSetName o] else []) in
    (∀ before after,
       trace w = trace w0 ++ before ++ MonitorStart "Generate barrel file" :: after →
       (∀ name, name ∈ exported →
          ∃ content fileType,
            WriteFile (iconsPath (outputDirectory o) (iconsFolderName o)) (Some name)
              content fileType ∈ before) ∧
       (after = [] ∨ ∃ after', after = barrelWrite o names :: after')) ∧
    (r = Resolved () →
     ∃ before after,
       trace w = trace w0 ++ before ++ MonitorStart "Generate barrel file" :: after).
Proof.
  destruct (convertToFiles o w0) as [r w] eqn:Hrun.
  pose proof (convertToFiles_run _ _ _ _ Hrun)
    as (done' & names' & paths' & _ & _ & _ & _ & Hr).
  apply run_stage in Hrun as (done & names & paths & Hdone & Hnames & Hsvg & Hsplit).
  exists names. split; [done|]. cbv zeta. split.
  2:{ intros ->. rewrite Hr.
      destruct (stages_barrel o done' names' paths') as (earlier & later & ->).
      rewrite brackets_middle. by eexists _, _. }
  intros before after Htr.
  destruct (Hsplit _ _ _ Htr) as (earlier & st & later & Hst & Hl & -> & Hafter).
  destruct (stage_barrel _ _ _ _ _ _ _ Hst Hl) as [Hw ->].
  split.
  - intros name [Hname|Hname]%elem_of_app.
    + rewrite Hnames in Hname.
      apply objects_names in Hname as (d & Hd & <-). rewrite <-Hdone in Hd.
      destruct (iconEvents_written o done d Hd) as (content & fileType & Hev).
      exists content, fileType.
      apply (elem_of_brackets _ (iconLabel o, iconEvents o done)); [|exact Hev].
      apply elem_of_app. left. do 2 apply list_elem_of_further. apply list_elem_of_here.
    + destruct (exportCompleteIconSet o); [|by apply elem_of_nil in Hname].
      apply list_elem_of_singleton in Hname as ->.
      eexists _, _. eapply (elem_of_brackets _ ("Export complete icon set", _)).
      * apply elem_of_app. right. apply elem_of_app. left. apply list_elem_of_here.
      * apply list_elem_of_here.
  - destruct Hafter as [[after' ->]|[[(ev & rest & Hp)|[Hicon _]] _]].
    + right. rewrite Hw. by eexists.
    + left. rewrite Hw in Hp. by destruct after as [|? [|? ?]].
    + rewrite Hl in Hicon. unfold iconLabel in Hicon. by destruct (tsx o).
Qed.

(** C10.  Whenever the stage of the orchestrator that writes the model
    file to the additional output path starts, a model file name and an
    additional path are configured, the generator has just written the
    model file to that path, and the write of the orchestrator is the
    next event, unless it is rejected, in which case nothing follows and
    the run is rejected; it repeats the call of the generator: same
    directory, same file name, same content.  A run that resolves with
    both configured has made both writes, the second after the first. *)
Theorem additional_model_written_twice (o : FilesConversionOptions) (w0 : World) :
  let '(r, w) := convertToFiles o w0 in
  let content :=
    generateTypeDefinition o (objects o) +:+ generateInterfaceDefinition o +:+
    generateEnumDefinition o (objects o) in
  let write :=
    WriteFile (interpolate (additionalModelOutputPath o)) (modelFileName o) content
      None in
  (∀ before after,
     trace w = trace w0 ++ before ++
               MonitorStart "Write model file to additional output path" :: after →
     truthy (modelFileName o) = true ∧
     truthy (additionalModelOutputPath o) = true ∧
     (∃ before' message message',
        before = before' ++
          [MonitorStart "Generate model file";
           WriteFile (iconsPath (outputDirectory o) (iconsFolderName o))
             (modelFileName o) content None;
           LoggerVerboseInfo message;
           write;
           LoggerVerboseInfo message';
           MonitorEnd "Generate model file"]) ∧
     ((after = [] ∧ ∃ e, r = Rejected e) ∨
      ∃ after',
        after = write :: MonitorEnd "Write model file to additional output path"
                :: after')) ∧
  (r = Resolved () →
   truthy (modelFileName o) = true →
   truthy (additionalModelOutputPath o) = true →
   ∃ before message message' after',
     trace w = trace w0 ++ before ++
       [MonitorStart "Generate model file";
        WriteFile (iconsPath (outputDirectory o) (iconsFolderName o))
          (modelFileName o) content None;
        LoggerVerboseInfo message;
        write;
        LoggerVerboseInfo message';
        MonitorEnd "Generate model file";
        MonitorStart "Write model file to additional output path";
        write;
        MonitorEnd "Write model file to additional output path"] ++ after').
Proof.
  destruct (convertToFiles o w0) as [r w] eqn:Hrun. cbv zeta.
  pose proof (convertToFiles_run _ _ _ _ Hrun)
    as (done' & names' & paths' & _ & _ & _ & _ & Hr).
  apply run_stage in Hrun as (done & names & paths & Hdone & Hnames & Hsvg & Hsplit).
  match goal with |- ?first ∧ _ => assert first as Hfirst end.
  { intros before after Htr.
    destruct (Hsplit _ _ _ Htr) as (earlier & st & later & Hst & Hl & -> & Hafter).
    destruct (stage_additional _ _ _ _ _ _ _ Hst Hl) as (Hm & Ha & Hw & earlier' & ->).
    split_and!; [done|done|..].
    - exists (earlier' ≫= bracket). eexists _, _.
      rewrite bind_app, bind_singleton. unfold bracket, modelEffects. rewrite Ha.
      simpl. reflexivity.
    - destruct Hafter as [[after' ->]|[[(ev & rest & Hp)|[Hicon _]] Hrej]].
      + right. rewrite Hw. by eexists.
      + left. rewrite Hw in Hp. split; [|done]. by destruct after as [|? [|? ?]].
      + rewrite Hl in Hicon. unfold iconLabel in Hicon. by destruct (tsx o). }
  split; [done|].
  intros -> Hm Ha. rewrite Hr in Hfirst |- *.
  destruct (stages_additional o done' names' paths' Hm Ha) as (earlier & later & Hst).
  assert (stages o done' names' paths'
          = (earlier ++ [("Generate model file", modelEffects o)]) ++
            ("Write model file to additional output path", [additionalModelWrite o])
            :: later) as Hst' by by rewrite Hst, <-app_assoc.
  rewrite Hst', brackets_middle in Hfirst |- *.
  destruct (Hfirst _ _ eq_refl)
    as (_ & _ & (before & message & message' & Hbefore) &
        [[_ [e He]]|[after' Hafter]]); [done|].
  exists before, message, message', after'.
  rewrite Hbefore. simpl in Hafter |- *. rewrite Hafter, <-!app_assoc. done.
Qed.

(** C2.  For every definition of the array, [generateSVGConstants] makes
    exactly one write: the file [{prefix}-{filenameWithoutEnding}.icon]
    in [{outputDirectory}/{iconsFolderName}], with the content built from
    the variable name, the type name and the data of the definition; the
    writes settle in any order.  The names it returns are exactly these
    names, one per definition, in the order of the array, and the objects
    are left as they were.  It resolves when no write is rejected.
    Outside TSX mode a resolved run of the converter has made these
    writes, for the definitions that the ingestion returned, as its third
    stage. *)
Theorem generateSVGConstants_one_file_per_definition
    (o : FilesConversionOptions) (svgDefinitions : list nat)
    (ds : list SvgDefinition) (w w0 : World) :
  let perIcon (d : SvgDefinition) :=
    [WriteFile (outputDirectory o +:+ "/" +:+ iconsFolderName o)
       (Some (prefix d +:+ "-" +:+ filenameWithoutEnding d +:+ ".icon"))
       (generateSvgConstant (variableName d) (typeName d) (data d)) None;
     svgLog (outputDirectory o) (iconsFolderName o) d] in
  (Forall2 (λ a d, heap w !! a = Some d) svgDefinitions ds →
   let '(r, w') :=
     generateSVGConstants svgDefinitions (outputDirectory o) (iconsFolderName o) w in
   heap w' = heap w ∧
   match r with
   | Resolved generatedFileNames =>
       generatedFileNames
       = (λ d, prefix d +:+ "-" +:+ filenameWithoutEnding d +:+ ".icon") <$> ds ∧
       ∃ done, done ≡ₚ ds ∧ trace w' = trace w ++ (done ≫= perIcon)
   | Rejected _ => ¬ neverRejects
   end) ∧
  (tsx o = false →
   ∀ w', convertToFiles o w0 = (Resolved (), w') →
     ∃ done after,
       done ≡ₚ svgFiles o ∧
       trace w' = trace w0 ++
         [MonitorStart "Deleting the output folder";
          DeleteFolder (outputDirectory o +:+ "/" +:+ iconsFolderName o);
          MonitorEnd "Deleting the output folder";
          MonitorStart "Processing SVG files";
          FilesProcessor o;
          MonitorEnd "Processing SVG files";
          MonitorStart "Generate SVG constants"] ++
         (done ≫= perIcon) ++
         MonitorEnd "Generate SVG constants" :: after).
Proof.
  cbv zeta. split.
  - intros Hall.
    destruct (generateSVGConstants _ _ _ _) as [r w'] eqn:Hrun.
    apply (generateSVGConstants_run _ _ _ ds) in Hrun as [Hheap Hr]; [|done].
    split; [done|]. destruct r as [names|e]; [done|by destruct Hr].
  - intros Htsx w' Hrun.
    apply convertToFiles_run in Hrun
      as (done & names & paths & Hdone & _ & _ & _ & ->).
    unfold objects in Hdone. rewrite Htsx in Hdone.
    exists done,
      ((drop 3 (stages o done names paths) ≫= bracket) ++
       [LoggerGenerationSuccess (outputDirectory o)]).
    split; [done|].
    unfold stages, iconLabel, iconEvents. rewrite Htsx. f_equal.
    rewrite bind_app. simpl. rewrite <-!app_assoc. done.
Qed.


(** C9.  Of the objects returned by the ingestion the converter only
    changes the variable names, and only on the TSX path: there each
    [variableName] becomes its first character uppercased followed by the
    rest of the string, before the TSX constant is generated from it.
    A run that is not in TSX mode leaves every field of every object as
    the ingestion returned it. *)
Theorem only_tsx_path_mutates (o : FilesConversionOptions) (w0 : World) :
  (∀ c rest, capitalize (String c rest) = toUpperCase (String c "") +:+ rest) ∧
  (let '(r, w) := convertToFiles o w0 in
   (heap w = heap w0 ∧ ∃ e, r = Rejected e) ∨
   heap w =
     if tsx o
     then (λ d, mkSvgDefinition (typeName d) (capitalize (variableName d)) (data d)
                  (prefix d) (filenameWithoutEnding d)) <$> svgFiles o
     else svgFiles o) ∧
  (let '(r, w) :=
     generateTSXFileConstants (seq 0 (length (heap w0))) (outputDirectory o)
       (iconsFolderName o) w0 in
   heap w =
     (λ d, mkSvgDefinition (typeName d) (capitalize (variableName d)) (data d)
             (prefix d) (filenameWithoutEnding d)) <$> heap w0 ∧
   ∀ generatedFileNames, r = Resolved generatedFileNames →
     ∀ d, d ∈ heap w0 →
       WriteFile (outputDirectory o +:+ "/" +:+ iconsFolderName o)
         (Some (iconFileName d))
         (generateTSXConstant (capitalize (variableName d)) (data d)) (Some TSX)
       ∈ trace w) ∧
  (let '(r, w) :=
     generateSVGConstants (seq 0 (length (heap w0))) (outputDirectory o)
       (iconsFolderName o) w0 in
   heap w = heap w0).
Proof.
  split_and!.
  - done.
  - destruct (convertToFiles o w0) as [r w] eqn:Hrun.
    apply convertToFiles_run in Hrun as (_ & _ & _ & _ & _ & _ & [Hh|Hh] & _).
    + right. by rewrite Hh.
    + by left.
  - destruct (generateTSXFileConstants _ _ _ _) as [r w] eqn:Hrun.
    apply generateTSXFileConstants_run in Hrun as [Hheap Hr].
    split; [done|]. intros names -> d Hd.
    destruct Hr as (_ & done & Hdone & ->).
    apply elem_of_app. right. apply list_elem_of_bind.
    exists (capitalizeDefinition d). split; [apply list_elem_of_here|].
    rewrite Hdone. by apply list_elem_of_fmap_2.
  - destruct (generateSVGConstants _ _ _ _) as [r w] eqn:Hrun.
    by apply (generateSVGConstants_run _ _ _ (heap w0)) in Hrun as [Hheap _];
      [|apply (lookup_addresses [])].
Qed.

(** C4.  With an unrecognized compilation output the dispatcher, once
    the paths are resolved, logs one error whose message ends by naming
    the valid values (ESM, UMD, ESM_AND_UMD), calls neither the compiler
    nor a deletion, and resolves; a run of the converter in which no call
    is rejected then completes: the error is logged inside the
    compilation stage, the stage ends and the success line is logged. *)
Theorem unrecognized_output_is_logged (o : FilesConversionOptions) (shown : string)
    (w w0 : World) :
  compileSources o = true →
  compilationOutput o = Unrecognized shown →
  let patterns :=
    [outputDirectory o +:+ "/" +:+ iconsFolderName o +:+ "/*.ts";
     outputDirectory o +:+ "/" +:+ barrelFileName o +:+ ".ts"] in
  let message :=
    "Please provide a valid Compilation output. You provided " +:+ shown +:+
    " but " +:+ newline +:+
    "            valid values are (ESM, UMD, ESM_AND_UMD)." in
  (rejects (trace w) (GetFilePathsFromRegex patterns) = false →
   compileTypeScriptToJS (outputDirectory o) (iconsFolderName o) (barrelFileName o)
     (compilationOutput o) w
   = (Resolved (),
      mkWorld (trace w ++ [GetFilePathsFromRegex patterns; LoggerError message])
        (heap w) (fileNames w))) ∧
  (∃ before, message = before +:+ "valid values are (ESM, UMD, ESM_AND_UMD).") ∧
  (neverRejects →
   ∃ w' before,
     convertToFiles o w0 = (Resolved (), w') ∧
     trace w' = trace w0 ++ before ++
       [MonitorStart "Compile TypeScript to JavaScript";
        GetFilePathsFromRegex patterns;
        LoggerError message;
        MonitorEnd "Compile TypeScript to JavaScript";
        LoggerGenerationSuccess (outputDirectory o)]).
Proof.
  intros Hc Hout. cbv zeta. split_and!.
  - intros Hlookup. rewrite Hout. unfold compileTypeScriptToJS.
    rewrite bind_run. unfold getFilePathsFromRegex. rewrite Hlookup.
    unfold error, log, emit. simpl. by rewrite <-app_assoc.
  - exists ("Please provide a valid Compilation output. You provided " +:+ shown +:+
            " but " +:+ newline +:+ "            ").
    by rewrite !append_assoc.
  - intros Hn. destruct (run_resolves o w0 Hn) as [w' Hrun].
    destruct (run_compile_last o _ _ Hrun Hc) as (before & paths & Htr).
    exists w', before. split; [done|].
    rewrite Htr. unfold compileEffects. by rewrite Hout.
Qed.

(** C5.  With the compilation output ESM_AND_UMD the dispatcher resolves
    the paths of the TypeScript files of the icons folder and of the
    barrel file, compiles them to [{outputDirectory}/esm], then to
    [{outputDirectory}/umd], deletes the resolved files and then the
    folder [{outputDirectory}/build], in this order, and stops at the
    first call that is rejected.  A resolved run of the converter with
    compilation enabled ends with these calls and the success line. *)
Theorem esm_and_umd_in_order (o : FilesConversionOptions) (w w0 : World) :
  compilationOutput o = ESM_AND_UMD →
  let patterns :=
    [outputDirectory o +:+ "/" +:+ iconsFolderName o +:+ "/*.ts";
     outputDirectory o +:+ "/" +:+ barrelFileName o +:+ ".ts"] in
  let calls paths :=
    [GetFilePathsFromRegex patterns;
     CompileToEsNext paths (outputDirectory o +:+ "/esm");
     CompileToUMD paths (outputDirectory o +:+ "/umd");
     DeleteFiles paths;
     DeleteFolder (outputDirectory o +:+ "/build")] in
  (let '(r, w') :=
     compileTypeScriptToJS (outputDirectory o) (iconsFolderName o) (barrelFileName o)
       (compilationOutput o) w in
   match r with
   | Resolved _ => trace w' = trace w ++ calls (matchingPaths (trace w) patterns)
   | Rejected e =>
       ∃ made ev rest,
         calls (matchingPaths (trace w) patterns) = made ++ ev :: rest ∧
         trace w' = trace w ++ made ∧
         rejects (trace w') ev = true ∧
         e = Failure ev
   end) ∧
  (compileSources o = true →
   ∀ w', convertToFiles o w0 = (Resolved (), w') →
     ∃ before paths,
       trace w' = trace w0 ++ before ++
         MonitorStart "Compile TypeScript to JavaScript" :: calls paths ++
         [MonitorEnd "Compile TypeScript to JavaScript";
          LoggerGenerationSuccess (outputDirectory o)]).
Proof.
  intros Hout. cbv zeta. split.
  - destruct (compileTypeScriptToJS _ _ _ _ _) as [r w'] eqn:Hrun.
    apply compileTypeScriptToJS_effects in Hrun as [_ Hr].
    unfold Effects, compileEffects, compilePatterns in Hr. by rewrite Hout in Hr.
  - intros Hc w' Hrun.
    destruct (run_compile_last o _ _ Hrun Hc) as (before & paths & Htr).
    exists before, paths. rewrite Htr. unfold compileEffects. by rewrite Hout.
Qed.

(** C6.  The model-file generator writes into the icons folder the file
    [modelFileName] whose content is the type definition followed by the
    interface definition followed by the enum definition, logs it, and,
    when an additional output path is configured, writes the same
    content under the same name to that path and logs that; it returns
    this content.  It stops at the first write that is rejected. *)
Theorem model_file_content (o : FilesConversionOptions) (svgDefinitions : list nat)
    (ds : list SvgDefinition) (w : World) :
  mapM (λ a, heap w !! a) svgDefinitions = Some ds →
  let content :=
    generateTypeDefinition o ds +:+ generateInterfaceDefinition o +:+
    generateEnumDefinition o ds in
  let calls :=
    [WriteFile (outputDirectory o +:+ "/" +:+ iconsFolderName o) (modelFileName o)
       content None;
     LoggerVerboseInfo ("model-file successfully generated under " +:+
                        outputDirectory o +:+ "/" +:+ iconsFolderName o +:+ "/" +:+
                        interpolate (modelFileName o) +:+ ".ts")] ++
    (if truthy (additionalModelOutputPath o) then
       [WriteFile (interpolate (additionalModelOutputPath o)) (modelFileName o)
          content None;
        LoggerVerboseInfo ("additional model-file successfully generated under " +:+
                           interpolate (additionalModelOutputPath o) +:+ "/" +:+
                           interpolate (modelFileName o) +:+ ".ts")]
     else []) in
  let '(r, w') := generateModelFile o svgDefinitions w in
  match r with
  | Resolved modelFile => modelFile = content ∧ trace w' = trace w ++ calls
  | Rejected e =>
      ∃ made ev rest,
        calls = made ++ ev :: rest ∧
        trace w' = trace w ++ made ∧
        rejects (trace w') ev = true ∧
        e = Failure ev
  end.
Proof.
  intros Hds. cbv zeta.
  destruct (generateModelFile o svgDefinitions w) as [r w'] eqn:Hrun.
  revert Hrun. unfold generateModelFile. rewrite bind_run.
  unfold snapshot at 1. rewrite Hds. run_calls.
  destruct (truthy (additionalModelOutputPath o)); simpl;
    repeat decide_call;
    intros [= <- <-]; first [solve_effects|split; [done|solve_effects]].
Qed.

End Claims.

(** * The claims at concrete inputs *)

(** C2 at the two demo icons, the second write settling first. *)
Lemma generateSVGConstants_one_file_per_definition_witness :
  Forall2 (λ a d, heap demoWorld !! a = Some d) [0; 1] demoIcons ∧
  tsx (demoOptions false ESM) = false ∧
  (∃ w', generateSVGConstants (env := demoEnv noRejection [1]) [0; 1] "out" "icons"
           demoWorld
         = (Resolved ["nav-home.icon"; "nav-back.icon"], w') ∧
         heap w' = demoIcons) ∧
  (∃ w' done, convertToFiles (env := demoEnv noRejection [1]) (demoOptions false ESM)
                freshWorld = (Resolved (), w') ∧
              done ≡ₚ demoIcons).
Proof.
  assert (Forall2 (λ a d, heap demoWorld !! a = Some d) [0; 1] demoIcons) as Hall
    by (repeat constructor).
  split; [exact Hall|]. split; [reflexivity|].
  destruct (generateSVGConstants_one_file_per_definition
              (env := demoEnv noRejection [1]) (demoOptions false ESM) [0; 1]
              demoIcons demoWorld freshWorld) as [Hgen Hrun].
  split.
  - specialize (Hgen Hall).
    change (outputDirectory (demoOptions false ESM)) with "out" in Hgen.
    change (iconsFolderName (demoOptions false ESM)) with "icons" in Hgen.
    destruct (generateSVGConstants _ _ _ _) as [r w'].
    destruct Hgen as [Hheap Hr]. exists w'.
    destruct r as [names|e].
    + destruct Hr as [-> _]. split; [reflexivity|exact Hheap].
    + exfalso. apply Hr. intros history ev. reflexivity.
  - destruct (run_resolves (env := demoEnv noRejection [1]) (demoOptions false ESM)
                freshWorld) as [w' Hw']; [intros history ev; reflexivity|].
    destruct (Hrun eq_refl w' Hw') as (done & after & Hdone & _).
    by exists w', done.
Defined.

(** C4 at an unrecognized output AMD. *)
Lemma unrecognized_output_is_logged_witness :
  compileSources (demoOptions false (Unrecognized "AMD")) = true ∧
  compilationOutput (demoOptions false (Unrecognized "AMD")) = Unrecognized "AMD" ∧
  rejects (Env := demoEnv noRejection []) (trace freshWorld)
    (GetFilePathsFromRegex ["out/icons/*.ts"; "out/index.ts"]) = false ∧
  neverRejects (H := demoEnv noRejection []) ∧
  (∃ w', compileTypeScriptToJS (env := demoEnv noRejection []) "out" "icons" "index"
           (Unrecognized "AMD") freshWorld = (Resolved (), w')) ∧
  (∃ w', convertToFiles (env := demoEnv noRejection [])
           (demoOptions false (Unrecognized "AMD")) freshWorld = (Resolved (), w')).
Proof.
  assert (neverRejects (H := demoEnv noRejection [])) as Hnever
    by (intros history ev; reflexivity).
  destruct (unrecognized_output_is_logged (env := demoEnv noRejection [])
              (demoOptions false (Unrecognized "AMD")) "AMD" freshWorld freshWorld
              eq_refl eq_refl) as (Hdispatch & _ & Hrun).
  split_and!; [reflexivity|reflexivity|reflexivity|exact Hnever| |].
  - eexists. exact (Hdispatch eq_refl).
  - destruct (Hrun Hnever) as (w' & before & Hw' & _). by exists w'.
Defined.

(** C5 at the demo options. *)
Lemma esm_and_umd_in_order_witness :
  compilationOutput (demoOptions false ESM_AND_UMD) = ESM_AND_UMD ∧
  ∃ w',
    compileTypeScriptToJS (env := demoEnv noRejection []) "out" "icons" "index"
      ESM_AND_UMD freshWorld
    = (Resolved (), w') ∧
    trace w' = [GetFilePathsFromRegex ["out/icons/*.ts"; "out/index.ts"];
                CompileToEsNext ["out/icons/*.ts"; "out/index.ts"] "out/esm";
                CompileToUMD ["out/icons/*.ts"; "out/index.ts"] "out/umd";
                DeleteFiles ["out/icons/*.ts"; "out/index.ts"];
                DeleteFolder "out/build"].
Proof.
  split; [reflexivity|].
  destruct (esm_and_umd_in_order (env := demoEnv noRejection [])
              (demoOptions false ESM_AND_UMD) freshWorld freshWorld eq_refl)
    as [Hdispatch _].
  cbv zeta in Hdispatch.
  change (compilationOutput (demoOptions false ESM_AND_UMD)) with ESM_AND_UMD
    in Hdispatch.
  change (outputDirectory (demoOptions false ESM_AND_UMD)) with "out" in Hdispatch.
  change (iconsFolderName (demoOptions false ESM_AND_UMD)) with "icons" in Hdispatch.
  change (barrelFileName (demoOptions false ESM_AND_UMD)) with "index" in Hdispatch.
  destruct (compileTypeScriptToJS _ _ _ _ _) as [[[]|e] w'].
  - exists w'. split; [reflexivity|exact Hdispatch].
  - exfalso. destruct Hdispatch as (made & ev & rest & _ & _ & Hrej & _).
    discriminate Hrej.
Defined.

(** C6 at the demo options and icons: both writes carry the same content. *)
Lemma model_file_content_witness :
  mapM (λ a, heap demoWorld !! a) [0; 1] = Some demoIcons ∧
  ∃ w',
    generateModelFile (env := demoEnv noRejection []) (demoOptions false ESM)
      [0; 1] demoWorld
    = (Resolved "type T = navHome|navBack;interface Icon {}enum E {navHome,navBack}", w') ∧
    trace w' =
      [WriteFile "out/icons" (Some "model")
         "type T = navHome|navBack;interface Icon {}enum E {navHome,navBack}" None;
       LoggerVerboseInfo "model-file successfully generated under out/icons/model.ts";
       WriteFile "extra" (Some "model")
         "type T = navHome|navBack;interface Icon {}enum E {navHome,navBack}" None;
       LoggerVerboseInfo
         "additional model-file successfully generated under extra/model.ts"].
Proof.
  split; [reflexivity|].
  pose proof (model_file_content (env := demoEnv noRejection []) (demoOptions false ESM)
                [0; 1] demoIcons demoWorld eq_refl) as Hspec.
  cbv zeta in Hspec.
  destruct (generateModelFile _ _ _) as [[modelFile|e] w'].
  - destruct Hspec as [Hcontent Htr]. exists w'.
    split; [by rewrite Hcontent|exact Htr].
  - exfalso. destruct Hspec as (made & ev & rest & _ & _ & Hrej & _). discriminate Hrej.
Defined.


(** C1 at the demo run. *)
Lemma barrel_file_content_witness :
  ∃ before after',
    trace demoRun.2
    = trace freshWorld ++ before ++ MonitorStart "Generate barrel file" ::
      WriteFile "out" (Some "index")
        ("import {Icon} from './icons/model';" +:+
         "export * from './icons/nav-home.icon';" +:+
         "export * from './icons/nav-back.icon';" +:+
         "export * from './icons/all';" +:+
         "export * from './icons/model';") None ::
      MonitorEnd "Generate barrel file" :: after'.
Proof.
  pose proof (barrel_file_content (env := demoEnv noRejection [])
                (demoOptions false ESM) freshWorld) as Hspec.
  unfold demoRun. destruct (convertToFiles _ _) as [r w] eqn:Hrun.
  assert (r = Resolved ()) as ->.
  { vm_compute in Hrun. by injection Hrun as <- _. }
  destruct Hspec as (names & _ & Hsvg & _ & Hex).
  rewrite (Hsvg eq_refl) in Hex.
  destruct (Hex eq_refl) as (before & after' & Htr).
  exists before, after'. vm_compute in Htr. vm_compute. exact Htr.
Defined.

(** C8 at the demo run. *)
Lemma exported_names_written_witness :
  ∃ before after,
    trace demoRun.2
    = trace freshWorld ++ before ++ MonitorStart "Generate barrel file" :: after ∧
    ∀ name, name ∈ ["nav-home.icon"; "nav-back.icon"; "all"] →
      ∃ content fileType, WriteFile "out/icons" (Some name) content fileType ∈ before.
Proof.
  pose proof (exported_names_written (env := demoEnv noRejection [])
                (demoOptions false ESM) freshWorld) as Hspec.
  unfold demoRun. destruct (convertToFiles _ _) as [r w] eqn:Hrun.
  assert (r = Resolved ()) as ->.
  { vm_compute in Hrun. by injection Hrun as <- _. }
  destruct Hspec as (names & Hnames & Hsplit & Hex).
  destruct (Hex eq_refl) as (before & after & Htr).
  exists before, after. split; [exact Htr|].
  intros name Hname. apply (proj1 (Hsplit _ _ Htr)).
  change ["nav-home.icon"; "nav-back.icon"; "all"]
    with (["nav-home.icon"; "nav-back.icon"] ++ ["all"]) in Hname.
  apply elem_of_app in Hname as [Hname|Hname]; apply elem_of_app; [left|by right].
  by rewrite Hnames.
Defined.

(** C10 at the demo run: the write of the generator to the additional
    path and, after it, the same write of the orchestrator. *)
Lemma additional_model_written_twice_witness :
  ∃ before message message' after',
    trace demoRun.2
    = trace freshWorld ++ before ++
      [MonitorStart "Generate model file";
       WriteFile "out/icons" (Some "model")
         "type T = navHome|navBack;interface Icon {}enum E {navHome,navBack}" None;
       LoggerVerboseInfo message;
       WriteFile "extra" (Some "model")
         "type T = navHome|navBack;interface Icon {}enum E {navHome,navBack}" None;
       LoggerVerboseInfo message';
       MonitorEnd "Generate model file";
       MonitorStart "Write model file to additional output path";
       WriteFile "extra" (Some "model")
         "type T = navHome|navBack;interface Icon {}enum E {navHome,navBack}" None;
       MonitorEnd "Write model file to additional output path"] ++ after'.
Proof.
  pose proof (additional_model_written_twice (env := demoEnv noRejection [])
                (demoOptions false ESM) freshWorld) as Hspec.
  unfold demoRun. destruct (convertToFiles _ _) as [r w] eqn:Hrun.
  assert (r = Resolved ()) as ->.
  { vm_compute in Hrun. by injection Hrun as <- _. }
  destruct Hspec as [_ Hex].
  destruct (Hex eq_refl eq_refl eq_refl) as (before & message & message' & after' & Htr).
  exists before, message, message', after'. exact Htr.
Defined.




(** C9 at the demo icons in TSX mode. *)
Lemma only_tsx_path_mutates_witness :
  ∃ w,
    convertToFiles (env := demoEnv noRejection []) (demoOptions true ESM) freshWorld
    = (Resolved (), w) ∧
    variableName <$> heap w = ["NavHome"; "NavBack"] ∧
    typeName <$> heap w = ["navHome"; "navBack"].
Proof.
  destruct (only_tsx_path_mutates (env := demoEnv noRejection []) (demoOptions true ESM)
              freshWorld) as (_ & Hheap & _).
  destruct (convertToFiles _ _) as [r w] eqn:Hrun.
  assert (r = Resolved ()) as ->.
  { vm_compute in Hrun. by injection Hrun as <- _. }
  exists w. split; [reflexivity|].
  destruct Hheap as [[_ [e He]]|Hheap]; [discriminate He|].
  rewrite Hheap. split; reflexivity.
Defined.

(** * Further properties of the converter *)

(** ** Properties of every event of a run *)

Section Events.
Context {env : Env} (o : FilesConversionOptions).
Variable P : Event → Prop.
Hypothesis P_start : ∀ label, P (MonitorStart label).
Hypothesis P_end : ∀ label, P (MonitorEnd label).
Hypothesis P_icon :
  ∀ ev, isIconEvent (iconsPath (outputDirectory o) (iconsFolderName o)) ev → P ev.
Hypothesis P_stages :
  ∀ names paths,
    Forall (λ st : string * list Event, Forall P st.2) (stages o [] names paths).

Lemma iconEvents_icon done :
  Forall (isIconEvent (iconsPath (outputDirectory o) (iconsFolderName o)))
    (iconEvents o done).
Proof.
  unfold iconEvents. destruct (tsx o);
    induction done as [|d done IH]; simpl; repeat constructor; done.
Qed.

Lemma stages_events done names paths :
  Forall (λ st : string * list Event, Forall P st.2) (stages o done names paths).
Proof.
  specialize (P_stages names paths). revert P_stages. unfold stages.
  rewrite !Forall_app, !Forall_cons. simpl.
  intros ((Hd & Hp & _ & _) & Hrest). split; [|done].
  split_and!; [done|done| |done].
  eapply Forall_impl; [apply iconEvents_icon|]. apply P_icon.
Qed.

Lemma bracket_events st : Forall P st.2 → Forall P (bracket st).
Proof.
  intros Hst. unfold bracket. apply Forall_cons. split; [done|].
  apply Forall_app. split; [done|]. by apply Forall_singleton.
Qed.

Lemma brackets_events (sts : list (string * list Event)) :
  Forall (λ st, Forall P st.2) sts → Forall P (sts ≫= bracket).
Proof.
  induction 1 as [|st sts Hst _ IH]; [done|].
  change ((st :: sts) ≫= bracket) with (bracket st ++ (sts ≫= bracket)).
  apply Forall_app. split; [by apply bracket_events|done].
Qed.

(** Every event of a run but the success line is a mark of the monitor,
    a call of a stage or an event of the per-icon stage. *)
Lemma run_events w0 r w :
  convertToFiles o w0 = (r, w) →
  ∃ evs,
    Forall P evs ∧
    trace w = trace w0 ++ evs ++
      match r with
      | Resolved _ => [LoggerGenerationSuccess (outputDirectory o)]
      | Rejected _ => []
      end.
Proof.
  intros Hrun. apply convertToFiles_run in Hrun
    as (done & names & paths & _ & _ & _ & _ & Hr).
  pose proof (stages_events done names paths) as Hall.
  destruct r as [[]|e].
  - eexists. split; [|done]. by apply brackets_events.
  - destruct Hr as (_ & completed & failed & rest & partial & Hst & -> & Hpartial).
    rewrite Hst in Hall. apply Forall_app in Hall as [Hc Hf].
    apply Forall_cons in Hf as [Hf _].
    eexists. split; [|by rewrite app_nil_r].
    apply Forall_app. split; [by apply brackets_events|].
    apply Forall_cons. split; [done|].
    destruct Hpartial as [(ev & rest' & Hpre)|[_ Hicon]].
    + rewrite Hpre in Hf. by apply Forall_app in Hf as [? _].
    + eapply Forall_impl; [done|]. apply P_icon.
Qed.

End Events.

(** Splits a statement about all the stages into one goal per call. *)
Ltac stage_events :=
  intros; unfold stages, iconEvents, modelEffects, compileEffects;
  repeat first
    [ apply Forall_app; split
    | apply Forall_cons; split
    | apply Forall_nil_2
    | match goal with |- Forall _ (if ?b then _ else _) => destruct b eqn:? end
    | match goal with |- Forall _ (match ?c with _ => _ end) => destruct c eqn:? end
    | progress simpl ].

(** Finds an element in a list that is written out. *)
Ltac find_elem :=
  simpl; solve [repeat first [apply list_elem_of_here | apply list_elem_of_further]].

Section Footprint.
Context {env : Env}.

(** X1.  Every file that an invocation writes, whether it resolves or is
    rejected, goes into the icons folder, into the output directory
    or, only when both a model file name and an additional model output
    path are configured, into that additional path. *)
Theorem writes_stay_in_output_directories (o : FilesConversionOptions) (w0 : World) :
  let '(r, w) := convertToFiles o w0 in
  ∃ evs, trace w = trace w0 ++ evs ∧ Forall (writesInto (outputDirectories o)) evs.
Proof.
  destruct (convertToFiles o w0) as [r w] eqn:Hrun.
  apply (run_events o (writesInto (outputDirectories o))) in Hrun
    as (evs & Hevs & Htr).
  - eexists. split; [done|]. apply Forall_app. split; [done|]. by destruct r; constructor.
  - done.
  - done.
  - intros [] Hev; try done. simpl in *. subst. unfold outputDirectories. find_elem.
  - stage_events.
    all: unfold outputDirectories.
    all: repeat match goal with H : _ = true |- _ => rewrite H end.
    all: first [done|find_elem].
Qed.

(** X2.  The only folders that an invocation deletes are the icons
    folder and, only when compilation is enabled with the output
    ESM_AND_UMD, the folder [{outputDirectory}/build]. *)
Theorem only_icons_and_build_folders_deleted (o : FilesConversionOptions)
    (w0 : World) :
  let '(r, w) := convertToFiles o w0 in
  ∃ evs, trace w = trace w0 ++ evs ∧ Forall (deletesOnly (deletedFolders o)) evs.
Proof.
  destruct (convertToFiles o w0) as [r w] eqn:Hrun.
  apply (run_events o (deletesOnly (deletedFolders o))) in Hrun
    as (evs & Hevs & Htr).
  - eexists. split; [done|]. apply Forall_app. split; [done|]. by destruct r; constructor.
  - done.
  - done.
  - by intros [].
  - stage_events.
    all: unfold deletedFolders.
    all: repeat match goal with H : _ = _ |- _ => rewrite H end.
    all: first [done|find_elem].
Qed.

(** X3.  With [compileSources] disabled no run looks up file paths, calls
    the compiler, deletes files or logs an error, whatever the
    compilation output is set to. *)
Theorem no_compilation_without_compileSources (o : FilesConversionOptions)
    (w0 : World) :
  compileSources o = false →
  let '(r, w) := convertToFiles o w0 in
  ∃ evs, trace w = trace w0 ++ evs ∧ Forall (λ ev, ¬ isCompilerEvent ev) evs.
Proof.
  intros Hc. destruct (convertToFiles o w0) as [r w] eqn:Hrun.
  apply (run_events o (λ ev, ¬ isCompilerEvent ev)) in Hrun as (evs & Hevs & Htr).
  - eexists. split; [done|]. apply Forall_app. split; [done|].
    destruct r; constructor; by auto.
  - by auto.
  - by auto.
  - intros [] Hev; simpl in *; tauto.
  - stage_events. all: first [by auto|congruence].
Qed.

(** X4.  The success line is logged by the runs that resolve and by no
    other: it is the last event of a run that resolves, and no other
    event of any run is a success line. *)
Theorem success_logged_iff_resolved (o : FilesConversionOptions) (w0 : World) :
  let '(r, w) := convertToFiles o w0 in
  ∃ evs,
    Forall (λ ev, ¬ isSuccess ev) evs ∧
    trace w = trace w0 ++ evs ++
      match r with
      | Resolved _ => [LoggerGenerationSuccess (outputDirectory o)]
      | Rejected _ => []
      end.
Proof.
  destruct (convertToFiles o w0) as [r w] eqn:Hrun.
  apply (run_events o (λ ev, ¬ isSuccess ev)) in Hrun; [done|by auto..| |].
  - intros [] Hev; simpl in *; tauto.
  - stage_events. all: by auto.
Qed.

End Footprint.

(** ** How many files a run writes *)

Section WriteCount.
Context {env : Env} (o : FilesConversionOptions).

Lemma countOf_app f evs evs' :
  countOf f (evs ++ evs') = countOf f evs + countOf f evs'.
Proof. unfold countOf. by rewrite List.filter_app, length_app. Qed.

Lemma brackets_app (sts sts' : list (string * list Event)) :
  (sts ++ sts') ≫= bracket = (sts ≫= bracket) ++ (sts' ≫= bracket).
Proof.
  induction sts as [|st sts IH]; [done|].
  change (((st :: sts) ++ sts') ≫= bracket)
    with (bracket st ++ ((sts ++ sts') ≫= bracket)).
  change ((st :: sts) ≫= bracket) with (bracket st ++ (sts ≫= bracket)).
  by rewrite IH, app_assoc.
Qed.

Lemma countOf_brackets f (st : string * list Event) sts :
  (∀ label, f (MonitorStart label) = false) →
  (∀ label, f (MonitorEnd label) = false) →
  countOf f ((st :: sts) ≫= bracket) = countOf f st.2 + countOf f (sts ≫= bracket).
Proof.
  intros Hstart Hend.
  change ((st :: sts) ≫= bracket) with (bracket st ++ (sts ≫= bracket)).
  rewrite countOf_app. f_equal. unfold bracket.
  change (MonitorStart st.1 :: st.2 ++ [MonitorEnd st.1])
    with ([MonitorStart st.1] ++ st.2 ++ [MonitorEnd st.1]).
  rewrite !countOf_app. unfold countOf at 1 3. simpl.
  rewrite Hstart, Hend. simpl. lia.
Qed.

Lemma writeCount_iconEvents done : countOf isWrite (iconEvents o done) = length done.
Proof.
  unfold iconEvents. destruct (tsx o);
    induction done as [|d done IH]; simpl; try done;
    change (countOf isWrite (?a :: ?b :: ?l)) with (S (countOf isWrite l)); by f_equal.
Qed.





Lemma writeCount_stages done names paths :
  writeCount (stages o done names paths ≫= bracket)
  = length done + (writesOfRun o - length (svgFiles o)).
Proof.
  unfold writeCount, stages, writesOfRun, modelEffects, compileEffects.
  rewrite !brackets_app, !countOf_app.
  destruct (exportCompleteIconSet o), (truthy (modelFileName o)),
    (truthy (additionalModelOutputPath o)), (compileSources o),
    (compilationOutput o);
    rewrite ?countOf_brackets by done; cbn [fst snd];
    rewrite writeCount_iconEvents;
    unfold completeIconSetWrite, barrelWrite, modelWrite, additionalModelWrite,
      countOf;
    cbn [List.filter isWrite length app mbind list_bind]; lia.
Qed.


End WriteCount.

Section Counting.
Context {env : Env}.

(** X5.  A run that resolves has written exactly one file per ingested
    definition, one for the complete icon set when it is exported, the
    barrel file and, when a model file name is configured, the model
    file, once, or three times when an additional output path is
    configured as well; without a model file name nothing else is
    written, whatever the additional output path is. *)
Theorem resolved_run_write_count (o : FilesConversionOptions) (w0 w : World) :
  convertToFiles o w0 = (Resolved (), w) →
  writeCount (trace w) = writeCount (trace w0) + writesOfRun o.
Proof.
  intros Hrun. apply convertToFiles_run in Hrun
    as (done & names & paths & Hdone & _ & _ & _ & ->).
  unfold writeCount at 1. rewrite !countOf_app.
  fold (writeCount (trace w0)) (writeCount (stages o done names paths ≫= bracket)).
  rewrite writeCount_stages, Hdone, length_objects.
  unfold writesOfRun, countOf. simpl. lia.
Qed.


End Counting.

Section LaterStages.
Context {env : Env}.

(** X7.  The assignment of the TSX path is visible to the stages that
    follow: in a run in TSX mode that resolves, the complete icon set and
    the model file are generated from the definitions with their
    capitalised variable names, and the complete icon set is written
    without the TSX file type. *)
Theorem tsx_names_reach_later_stages (o : FilesConversionOptions) (w0 w : World) :
  tsx o = true →
  convertToFiles o w0 = (Resolved (), w) →
  let definitions := capitalizeDefinition <$> svgFiles o in
  (exportCompleteIconSet o = true →
   WriteFile (outputDirectory o +:+ "/" +:+ iconsFolderName o)
     (Some (completeIconSetName o))
     (generateCompleteIconSetContent definitions (completeIconSetName o)
        (interfaceName o) (modelFileName o) (generateType o) true)
     None ∈ trace w) ∧
  (truthy (modelFileName o) = true →
   WriteFile (outputDirectory o +:+ "/" +:+ iconsFolderName o) (modelFileName o)
     (generateTypeDefinition o definitions +:+ generateInterfaceDefinition o +:+
      generateEnumDefinition o definitions)
     None ∈ trace w).
Proof.
  intros Htsx Hrun. cbv zeta.
  apply convertToFiles_run in Hrun as (done & names & paths & _ & _ & _ & _ & ->).
  assert (objects o = capitalizeDefinition <$> svgFiles o) as <-
    by (unfold objects; by rewrite Htsx).
  split; intros Hon; apply elem_of_app; right; apply elem_of_app; left.
  - apply (elem_of_brackets _ ("Export complete icon set", [completeIconSetWrite o]));
      [unfold stages; rewrite Hon; find_elem|].
    unfold completeIconSetWrite. rewrite Htsx. apply list_elem_of_here.
  - apply (elem_of_brackets _ ("Generate model file", modelEffects o));
      [unfold stages; rewrite Hon; destruct (exportCompleteIconSet o); find_elem|].
    apply list_elem_of_here.
Qed.

(** X8.  A variable name whose first character is its own upper case is
    left as it is by the assignment of the TSX path; when this holds of
    every ingested definition, the definitions after a run in either
    mode are the ingested ones. *)
Theorem capitalised_names_are_kept (o : FilesConversionOptions) (w0 : World) :
  (∀ d, d ∈ svgFiles o →
        toUpperCase (charAt0 (variableName d)) = charAt0 (variableName d)) →
  (∀ d, d ∈ svgFiles o → capitalize (variableName d) = variableName d) ∧
  let '(r, w) := convertToFiles o w0 in
  heap w = svgFiles o ∨ (heap w = heap w0 ∧ ∃ e, r = Rejected e).
Proof.
  intros Hupper.
  assert (∀ d, d ∈ svgFiles o → capitalize (variableName d) = variableName d) as Hkept.
  { intros d Hd. unfold capitalize. rewrite (Hupper d Hd).
    by destruct (variableName d). }
  split; [done|].
  destruct (convertToFiles o w0) as [r w] eqn:Hrun.
  apply convertToFiles_run in Hrun as (_ & _ & _ & _ & _ & _ & [Hh|Hh] & _); [|by right].
  left. rewrite Hh. unfold objects. destruct (tsx o); [|done].
  rewrite <-(list_fmap_id (svgFiles o)) at 2.
  apply list_fmap_ext. intros i d Hd%list_elem_of_lookup_2.
  unfold capitalizeDefinition. rewrite (Hkept d Hd). by destruct d.
Qed.

(** X9.  Without ingested definitions both per-icon generators return
    the empty array under every schedule, write nothing and change
    nothing; a run of the converter that resolves has no per-icon event
    and still writes the barrel file, whose exports are those of the
    complete icon set, when enabled, and of the model file. *)
Theorem no_definitions_no_icon_files (o : FilesConversionOptions)
    (outputDirectory' iconsFolderName' : string) (w w0 : World) :
  generateSVGConstants [] outputDirectory' iconsFolderName' w
  = (Resolved [], mkWorld (trace w) (heap w) []) ∧
  generateTSXFileConstants [] outputDirectory' iconsFolderName' w
  = (Resolved [], mkWorld (trace w) (heap w) []) ∧
  (svgFiles o = [] →
   ∀ w', convertToFiles o w0 = (Resolved (), w') →
     ∃ paths,
       trace w' = trace w0 ++ (stages o [] [] paths ≫= bracket) ++
                  [LoggerGenerationSuccess (outputDirectory o)]).
Proof.
  split_and!.
  - unfold generateSVGConstants, promiseAll, newFileNames, readFileNames.
    rewrite !bind_run. simpl. by destruct schedule.
  - unfold generateTSXFileConstants, promiseAll, newFileNames, readFileNames.
    rewrite !bind_run. simpl. by destruct schedule.
  - intros Hnone w' Hrun.
    apply convertToFiles_run in Hrun
      as (done & names & paths & Hdone & Hnames & _ & _ & ->).
    assert (objects o = []) as Hobj by (unfold objects; rewrite Hnone; by destruct (tsx o)).
    rewrite Hobj in Hdone. rewrite Hnone in Hnames.
    apply Permutation_nil_r in Hdone as ->. apply Permutation_nil_r in Hnames as ->.
    by exists paths.
Qed.

End LaterStages.

Section Compilation.
Context {env : Env}.

(** X10.  With the compilation output ESM, or UMD, the dispatcher resolves
    the paths, calls the one compiler on them with the output directory
    itself as its target and then deletes the resolved files; it deletes
    no folder, and stops at the first call that is rejected. *)
Theorem single_target_compilation (o : FilesConversionOptions) (w : World) :
  compilationOutput o = ESM ∨ compilationOutput o = UMD →
  let patterns :=
    [outputDirectory o +:+ "/" +:+ iconsFolderName o +:+ "/*.ts";
     outputDirectory o +:+ "/" +:+ barrelFileName o +:+ ".ts"] in
  let calls paths :=
    [GetFilePathsFromRegex patterns;
     match compilationOutput o with
     | ESM => CompileToEsNext paths (outputDirectory o)
     | _ => CompileToUMD paths (outputDirectory o)
     end;
     DeleteFiles paths] in
  let '(r, w') :=
    compileTypeScriptToJS (outputDirectory o) (iconsFolderName o) (barrelFileName o)
      (compilationOutput o) w in
  match r with
  | Resolved _ => trace w' = trace w ++ calls (matchingPaths (trace w) patterns)
  | Rejected e =>
      ∃ made ev rest,
        calls (matchingPaths (trace w) patterns) = made ++ ev :: rest ∧
        trace w' = trace w ++ made ∧
        rejects (trace w') ev = true ∧
        e = Failure ev
  end.
Proof.
  intros Hout. cbv zeta.
  destruct (compileTypeScriptToJS _ _ _ _ _) as [r w'] eqn:Hrun.
  apply compileTypeScriptToJS_effects in Hrun as [_ Hr].
  unfold Effects, compileEffects, compilePatterns in Hr.
  by destruct Hout as [Hout|Hout]; rewrite Hout in Hr |- *.
Qed.

(** X11.  Whatever the compilation output and whichever call is
    rejected, the dispatcher deletes files only after every compiler
    call of the selected output has returned, and the files it deletes
    are the resolved paths, which are the ones it has compiled. *)
Theorem sources_deleted_after_compilation (o : FilesConversionOptions) (w : World) :
  let '(r, w') :=
    compileTypeScriptToJS (outputDirectory o) (iconsFolderName o) (barrelFileName o)
      (compilationOutput o) w in
  ∃ evs,
    trace w' = trace w ++ evs ∧
    ∀ before filePaths after,
      evs = before ++ DeleteFiles filePaths :: after →
      filePaths = matchingPaths (trace w)
                    [outputDirectory o +:+ "/" +:+ iconsFolderName o +:+ "/*.ts";
                     outputDirectory o +:+ "/" +:+ barrelFileName o +:+ ".ts"] ∧
      match compilationOutput o with
      | ESM => CompileToEsNext filePaths (outputDirectory o) ∈ before
      | UMD => CompileToUMD filePaths (outputDirectory o) ∈ before
      | ESM_AND_UMD =>
          CompileToEsNext filePaths (outputDirectory o +:+ "/esm") ∈ before ∧
          CompileToUMD filePaths (outputDirectory o +:+ "/umd") ∈ before
      | Unrecognized _ => False
      end.
Proof.
  destruct (compileTypeScriptToJS _ _ _ _ _) as [r w'] eqn:Hrun.
  apply compileTypeScriptToJS_effects in Hrun as [_ Hr].
  assert (∃ evs rest,
            trace w' = trace w ++ evs ∧
            compileEffects o (matchingPaths (trace w) (compilePatterns o)) = evs ++ rest)
    as (evs & rest & Htr & Hevs).
  { destruct r as [[]|e].
    - eexists _, []. split; [done|by rewrite app_nil_r].
    - destruct Hr as (made & ev & rest & Hmade & Htr & _). by exists made, (ev :: rest). }
  exists evs. split; [done|]. intros before filePaths after ->.
  unfold compileEffects, compilePatterns in Hevs.
  destruct (compilationOutput o);
    repeat (destruct before as [|? before]; simplify_eq/=);
    split_and?; first [done|find_elem].
Qed.

End Compilation.

Section CompletionOrder.
Context {env : Env}.

Lemma eventLoop_step n sched pool rejection w :
  eventLoop (n :: sched) pool rejection w =
  match pool !! (n `mod` length pool) with
  | None => (rejection, w)
  | Some t =>
      let '(p, w') := resume t w in
      match p with
      | Suspended t' =>
          eventLoop sched (<[n `mod` length pool := t']> pool) rejection w'
      | Settled r =>
          eventLoop sched (delete (n `mod` length pool) pool)
            (noteRejection rejection r) w'
      end
  end.
Proof. done. Qed.

(** X12.  On the TSX path the generated file names are returned in the
    order in which the awaited generators settle, not in the order of
    the array.  For any two definitions and under every schedule: when
    the promise that settles first is the generator of the first
    callback, the names are returned in the order of the array, and when
    it is the generator of the second callback, the name of the second
    definition comes first.  The promise that settles first is the one
    the schedule names among the two pending generators, and the first
    one when the schedule is empty. *)
Theorem tsx_names_in_completion_order (d1 d2 : SvgDefinition)
    (outputDirectory' iconsFolderName' : string) (w : World) :
  heap w = [d1; d2] →
  let firstToSettle :=
    match schedule with
    | [] => 0
    | n :: _ => n `mod` 2
    end in
  let '(r, w') :=
    generateTSXFileConstants [0; 1] outputDirectory' iconsFolderName' w in
  (∀ generatedFileNames,
     r = Resolved generatedFileNames →
     generatedFileNames =
       match firstToSettle with
       | 0 => [iconFileName d1; iconFileName d2]
       | _ => [iconFileName d2; iconFileName d1]
       end) ∧
  (neverRejects → ∃ generatedFileNames, r = Resolved generatedFileNames).
Proof.
  intros Hheap. cbv zeta. destruct w as [tr hp names0]. simpl in Hheap. subst hp.
  destruct (generateTSXFileConstants _ _ _ _) as [r w'] eqn:Hrun.
  split.
  2:{ intros Hnever.
      change [0; 1] with (seq 0 (length (heap (mkWorld tr [d1; d2] names0)))) in Hrun.
      apply generateTSXFileConstants_run in Hrun as [_ Hr].
      destruct r as [names|e]; [by eexists|]. by destruct Hr as [Hr _]. }
  intros names ->.
  unfold generateTSXFileConstants, mbind, M_bind, newFileNames, promiseAll,
    readFileNames in Hrun.
  change [0; 1] with (seq (length (@nil SvgDefinition)) (length [d1; d2])) in Hrun.
  rewrite (tsx_spawn _ _ [] [d1; d2]) in Hrun by done.
  cbn [trace heap fileNames fmap list_fmap app generatorItems length] in Hrun.
  destruct schedule as [|n sched].
  - (* the schedule is empty: the callbacks are completed in turn *)
    simpl in Hrun. unfold writeFile, call in Hrun. simpl in Hrun.
    repeat match type of Hrun with
           | context [rejects ?history ?ev] =>
               destruct (rejects history ev) eqn:?; simpl in Hrun
           end; by simplify_eq.
  - rewrite eventLoop_step in Hrun. cbn [length] in Hrun.
    pose proof (Nat.mod_upper_bound n 2) as Hbound.
    destruct (n `mod` 2) as [|[|k]] eqn:Hmod; [| |lia]; cbn [lookup list_lookup] in Hrun.
    + (* the generator of the first callback settles first *)
      rewrite tsxTask_generator in Hrun by done.
      cbn [insert list_insert] in Hrun.
      destruct (eventLoop sched _ None _) as [rejection w2] eqn:Hloop.
      eapply (pool_run (tsxWrite outputDirectory' iconsFolderName')
                (tsxLog outputDirectory' iconsFolderName')
                (tsxTask outputDirectory' iconsFolderName')
                (iconsPath outputDirectory' iconsFolderName'))
        with (items0 := [AwaitsWrite (capitalizeDefinition d1);
                         AwaitsGenerator 1 (capitalizeDefinition d2)]) in Hloop
        as (_ & done & order & evs & _ & _ & Hnames & Hperm & _).
      * simpl in Hperm. apply Permutation_singleton_r in Hperm as ->.
        destruct rejection; simplify_eq/=. by rewrite Hnames.
      * intros d. by unfold tsxWrite.
      * done.
      * apply tsxTask_generator.
      * apply tsxTask_write.
      * by repeat constructor.
    + (* the generator of the second callback settles first *)
      rewrite tsxTask_generator in Hrun by done.
      cbn [insert list_insert] in Hrun.
      destruct (eventLoop sched _ None _) as [rejection w2] eqn:Hloop.
      eapply (pool_run (tsxWrite outputDirectory' iconsFolderName')
                (tsxLog outputDirectory' iconsFolderName')
                (tsxTask outputDirectory' iconsFolderName')
                (iconsPath outputDirectory' iconsFolderName'))
        with (items0 := [AwaitsGenerator 0 (capitalizeDefinition d1);
                         AwaitsWrite (capitalizeDefinition d2)]) in Hloop
        as (_ & done & order & evs & _ & _ & Hnames & Hperm & _).
      * simpl in Hperm. apply Permutation_singleton_r in Hperm as ->.
        destruct rejection; simplify_eq/=. by rewrite Hnames.
      * intros d. by unfold tsxWrite.
      * done.
      * apply tsxTask_generator.
      * apply tsxTask_write.
      * by repeat constructor.
Qed.

End CompletionOrder.

(** ** The origin of a rejection *)

Section Blame.
Context {env : Env}.

Lemma Blamed_mono w0 w1 e w2 w3 :
  trace w0 `prefix_of` trace w1 →
  Blamed w1 e w2 →
  trace w2 `prefix_of` trace w3 →
  Blamed w0 e w3.
Proof.
  intros H01 (ev & history & -> & Hrej & H1 & H2) H23.
  exists ev, history. split_and!; [done|done|by etrans|by etrans].
Qed.

Lemma Blamed_now w ev : rejects (trace w) ev = true → Blamed w (Failure ev) w.
Proof. intros Hrej. by exists ev, (trace w). Qed.

Lemma effects_blame {A} full w (r : Outcome A) w' :
  Effects full w r w' →
  trace w `prefix_of` trace w' ∧
  match r with
  | Resolved _ => True
  | Rejected e => Blamed w e w'
  end.
Proof.
  destruct r as [a|e]; simpl.
  - intros ->. split; [by apply prefix_app_r|done].
  - intros (partial & ev & rest & _ & Htr & Hrej & ->).
    split; [rewrite Htr; by apply prefix_app_r|].
    exists ev, (trace w'). split_and!; [done|done| |done].
    rewrite Htr. by apply prefix_app_r.
Qed.

Lemma triple_bind {A B} Pre Mid Post (m : M A) (f : A → M B) :
  Triple Pre m Mid →
  (∀ a, Triple (Mid a) (f a) Post) →
  Triple Pre (m ≫= f) Post.
Proof.
  intros Hm Hf w r w' Hpre. rewrite bind_run.
  destruct (m w) as [[a|e] w1] eqn:Hrun.
  - destruct (Hm _ _ _ Hpre Hrun) as [Htr Hmid]. intros Hrun'.
    destruct (Hf a _ _ _ Hmid Hrun') as [Htr' Hpost].
    split; [by etrans|]. destruct r; [done|]. by eapply Blamed_mono.
  - intros ?. simplify_eq. by apply (Hm _ _ _ Hpre Hrun).
Qed.

Lemma triple_ret {A} (Post : A → list SvgDefinition → Prop) a :
  Triple (Post a) (mret a) Post.
Proof. by intros w r w' Hpre [= <- <-]. Qed.

Lemma triple_conseq {A} (Pre Pre' : list SvgDefinition → Prop)
    (Post Post' : A → list SvgDefinition → Prop) (m : M A) :
  Triple Pre m Post →
  (∀ h, Pre' h → Pre h) →
  (∀ a h, Post a h → Post' a h) →
  Triple Pre' m Post'.
Proof.
  intros Hm Hpre Hpost w r w' Hw Hrun.
  destruct (Hm _ _ _ (Hpre _ Hw) Hrun) as [Htr Hr].
  split; [done|]. destruct r; [by apply Hpost|done].
Qed.

Lemma triple_assume {A} (φ : Prop) Pre Post (m : M A) :
  (φ → Triple Pre m Post) →
  Triple (λ h, φ ∧ Pre h) m Post.
Proof. intros Hm w r w' [Hφ Hpre]. by apply Hm. Qed.

Lemma triple_call Pre ev : Triple Pre (call ev) (λ _, Pre).
Proof.
  intros w r w' Hpre. unfold call.
  destruct (rejects (trace w) ev) eqn:Hrej; intros [= <- <-].
  - split; [done|]. by apply Blamed_now.
  - split; [by apply prefix_app_r|done].
Qed.

Lemma triple_log Pre ev : Triple Pre (log ev) (λ _, Pre).
Proof.
  intros w r w' Hpre [= <- <-]. split; [by apply prefix_app_r|done].
Qed.

Lemma triple_monitor {A} Pre Post (fn : M A) label :
  Triple Pre fn Post →
  Triple Pre (callAndMonitorAsync fn label) Post.
Proof.
  intros Hfn. unfold callAndMonitorAsync.
  eapply triple_bind; [apply triple_log|]. intros [].
  eapply triple_bind; [done|]. intros a.
  eapply triple_bind; [apply (triple_log (Post a))|]. intros [].
  apply triple_ret.
Qed.

(** A function that keeps the objects and makes a sequence of calls. *)
Lemma triple_effects {A} Pre (m : M A) :
  (∀ w r w', Pre (heap w) → m w = (r, w') →
             heap w' = heap w ∧ ∃ full, Effects full w r w') →
  Triple Pre m (λ _, Pre).
Proof.
  intros Hm w r w' Hpre Hrun.
  destruct (Hm _ _ _ Hpre Hrun) as (Hheap & full & Heff).
  apply effects_blame in Heff as [Htr Hr].
  split; [done|]. destruct r; [by rewrite Hheap|done].
Qed.

End Blame.

Section PoolBlame.
Context {env : Env}.
Variables (wr lg : SvgDefinition → Event) (task : Pending → Task) (dir : string).
Hypothesis wr_icon : ∀ d, isIconEvent dir (wr d).
Hypothesis lg_icon : ∀ d, isIconEvent dir (lg d).
Hypothesis resume_generator : ∀ a d w,
  heap w !! a = Some d →
  resume (task (AwaitsGenerator a d)) w
  = (Suspended (task (AwaitsWrite d)), pushed (iconFileName d) w).
Hypothesis resume_write : ∀ d w,
  resume (task (AwaitsWrite d)) w
  = if rejects (trace w) (wr d) then (Settled (Rejected (Failure (wr d))), w)
    else (Settled (Resolved ()), emit (lg d) (emit (wr d) w)).

Lemma blame_step w0 items0 : StepPreserves (BlameInv wr lg task dir w0 items0).
Proof.
  intros pool rejection w i t [Hinv Hblame] Hi.
  pose proof (pool_step wr lg task dir wr_icon lg_icon resume_generator resume_write
                w0 items0 pool rejection w i t Hinv Hi) as Hstep.
  destruct Hinv as (Hheap & items & done & order & evs & -> & Haddr & Htr & _).
  apply list_lookup_fmap_Some in Hi as (item & -> & Hitem).
  destruct item as [a d|d].
  - assert (heap w !! a = Some d) as Ha.
    { rewrite Hheap. by apply (Forall_lookup_1 _ _ _ _ Haddr Hitem). }
    rewrite (resume_generator _ _ _ Ha) in Hstep |- *.
    split; [done|]. intros e He. by eapply Blamed_mono; [|apply Hblame|].
  - rewrite resume_write in Hstep |- *.
    destruct (rejects (trace w) (wr d)) eqn:Hrej.
    + split; [done|]. intros e He.
      destruct rejection as [e'|]; simpl in He; simplify_eq; [by apply Hblame|].
      exists (wr d), (trace w). split_and!; [done|done| |done].
      rewrite Htr. by apply prefix_app_r.
    + split; [done|]. intros e He.
      destruct rejection as [e'|]; simpl in He; simplify_eq.
      eapply Blamed_mono; [done|by apply Hblame|].
      simpl. rewrite <-app_assoc. by apply prefix_app_r.
Qed.

Lemma pool_blame w0 items0 sched e w' :
  Forall (addressed (heap w0)) items0 →
  eventLoop sched (task <$> items0) None w0 = (Some e, w') →
  Blamed w0 e w'.
Proof.
  intros Haddr Hloop.
  eapply (eventLoop_preserves _ (blame_step w0 items0)) in Hloop.
  - destruct Hloop as [_ Hblame]. by apply Hblame.
  - split; [|done]. split; [done|]. exists items0, [], [], [].
    split_and!; try done.
    + by rewrite app_nil_r.
    + by rewrite app_nil_r.
    + intros _. by rewrite app_nil_r.
Qed.

End PoolBlame.

Section GeneratorBlame.
Context {env : Env}.
Variables outputDirectory iconsFolderName : string.

Lemma generateSVGConstants_blame svgDefinitions ds w e w' :
  Forall2 (λ a d, heap w !! a = Some d) svgDefinitions ds →
  generateSVGConstants svgDefinitions outputDirectory iconsFolderName w
  = (Rejected e, w') →
  Blamed w e w'.
Proof.
  intros Hall Hrun.
  unfold generateSVGConstants, mbind, M_bind, newFileNames, promiseAll, readFileNames in Hrun.
  rewrite (svg_spawn _ _ _ ds) in Hrun by done. simpl in Hrun.
  destruct (eventLoop _ _ _ _) as [[e'|] w1] eqn:Hloop; simplify_eq/=.
  eapply (pool_blame (svgWrite outputDirectory iconsFolderName)
            (svgLog outputDirectory iconsFolderName)
            (svgTask outputDirectory iconsFolderName)
            (iconsPath outputDirectory iconsFolderName)) in Hloop.
  - by eapply Blamed_mono.
  - intros d. by unfold svgWrite.
  - done.
  - apply svgTask_generator.
  - apply svgTask_write.
  - clear. induction ds; simpl; by constructor.
Qed.

Lemma generateTSXFileConstants_blame w e w' :
  generateTSXFileConstants (seq 0 (length (heap w))) outputDirectory iconsFolderName w
  = (Rejected e, w') →
  Blamed w e w'.
Proof.
  intros Hrun.
  unfold generateTSXFileConstants, mbind, M_bind, newFileNames, promiseAll,
    readFileNames in Hrun.
  rewrite (tsx_spawn _ _ [] (heap w)) in Hrun by done. simpl in Hrun.
  destruct (eventLoop _ _ _ _) as [[e'|] w1] eqn:Hloop; simplify_eq/=.
  eapply (pool_blame (tsxWrite outputDirectory iconsFolderName)
            (tsxLog outputDirectory iconsFolderName)
            (tsxTask outputDirectory iconsFolderName)
            (iconsPath outputDirectory iconsFolderName)) in Hloop.
  - by eapply Blamed_mono.
  - intros d. by unfold tsxWrite.
  - done.
  - apply tsxTask_generator.
  - apply tsxTask_write.
  - apply (generatorItems_addressed []).
Qed.

End GeneratorBlame.

Section RejectionOrigin.
Context {env : Env} (o : FilesConversionOptions).

Local Abbreviation addresses := (seq 0 (length (svgFiles o))).
Local Abbreviation Ingested := (λ h : list SvgDefinition, h = svgFiles o).
Local Abbreviation Objects := (λ h : list SvgDefinition, h = objects o).

Lemma filesProcessor_triple :
  Triple (λ _, True) (filesProcessor o)
    (λ svgDefinitions h, svgDefinitions = addresses ∧ Ingested h).
Proof.
  unfold filesProcessor. eapply triple_bind; [apply triple_call|]. intros [].
  by intros w r w' _ [= <- <-].
Qed.

Lemma icons_triple :
  Triple Ingested
    (if tsx o
     then callAndMonitorAsync
            (generateTSXFileConstants addresses (outputDirectory o) (iconsFolderName o))
            "Generate TSX constants"
     else callAndMonitorAsync
            (generateSVGConstants addresses (outputDirectory o) (iconsFolderName o))
            "Generate SVG constants")
    (λ _, Objects).
Proof.
  unfold objects. destruct (tsx o); apply triple_monitor; intros w r w' Hpre Hrun;
    rewrite <-Hpre in Hrun |- *; pose proof Hrun as Hrun'.
  - apply generateTSXFileConstants_run in Hrun' as [Hheap Hr].
    destruct r as [names|e].
    + destruct Hr as (_ & done & _ & Htr). split; [|done].
      rewrite Htr. by apply prefix_app_r.
    + destruct Hr as (_ & evs & Htr & _). split; [rewrite Htr; by apply prefix_app_r|].
      by apply generateTSXFileConstants_blame in Hrun.
  - apply (generateSVGConstants_run _ _ _ (heap w)) in Hrun' as [Hheap Hr];
      [|apply (lookup_addresses [])].
    destruct r as [names|e].
    + destruct Hr as (_ & done & _ & Htr). split; [|done].
      rewrite Htr. by apply prefix_app_r.
    + destruct Hr as (_ & evs & Htr & _). split; [rewrite Htr; by apply prefix_app_r|].
      apply (generateSVGConstants_blame _ _ _ (heap w)) in Hrun; [done|].
      apply (lookup_addresses []).
Qed.

Lemma generateCompleteIconSet_triple :
  Triple Objects
    (generateCompleteIconSet addresses (outputDirectory o) (iconsFolderName o)
       (completeIconSetName o) (interfaceName o) (modelFileName o) (generateType o)
       (tsx o))
    (λ _, Objects).
Proof.
  apply (triple_effects Objects). intros w r w' Hpre Hrun.
  apply generateCompleteIconSet_effects in Hrun as [Hheap Heff]; [|done].
  split; [done|by eexists].
Qed.

Lemma generateModelFile_triple :
  Triple Objects (generateModelFile o addresses) (λ _, Objects).
Proof.
  apply (triple_effects Objects). intros w r w' Hpre Hrun.
  apply generateModelFile_effects in Hrun as (Hheap & Heff & _); [|done].
  split; [done|by eexists].
Qed.

Lemma compileTypeScriptToJS_triple :
  Triple Objects
    (compileTypeScriptToJS (outputDirectory o) (iconsFolderName o) (barrelFileName o)
       (compilationOutput o))
    (λ _, Objects).
Proof.
  apply (triple_effects Objects). intros w r w' Hpre Hrun.
  apply compileTypeScriptToJS_effects in Hrun as [Hheap Heff].
  split; [done|by eexists].
Qed.

Lemma callAndMonitor_triple {A} Pre (fn : unit → A) label :
  Triple Pre (callAndMonitor fn label) (λ _, Pre).
Proof.
  intros w r w' Hpre. rewrite callAndMonitor_run. intros [= <- <-].
  split; [|done]. simpl. rewrite <-app_assoc. by apply prefix_app_r.
Qed.

Lemma convertToFiles_triple : Triple (λ _, True) (convertToFiles o) (λ _ _, True).
Proof.
  unfold convertToFiles. cbv zeta.
  eapply triple_bind; [apply triple_monitor, triple_call|]. intros [].
  eapply triple_bind; [apply triple_monitor, filesProcessor_triple|].
  intros svgDefinitions. apply triple_assume. intros ->.
  eapply triple_bind; [apply icons_triple|]. intros generatedFileNames.
  apply (triple_bind _ (λ _, Objects)).
  { destruct (exportCompleteIconSet o); [|apply (triple_ret (λ _, Objects))].
    eapply triple_bind; [apply triple_monitor, generateCompleteIconSet_triple|].
    intros []. apply (triple_ret (λ _, Objects)). }
  intros exported.
  eapply triple_bind; [apply callAndMonitor_triple|]. intros indexFileContent.
  eapply triple_bind; [apply triple_monitor, triple_call|]. intros [].
  apply (triple_bind _ (λ _, Objects)).
  { destruct (truthy (modelFileName o)); [|apply (triple_ret (λ _, Objects))].
    eapply triple_bind; [apply triple_monitor, generateModelFile_triple|].
    intros modelFile.
    destruct (truthy (additionalModelOutputPath o));
      [apply triple_monitor, triple_call|apply (triple_ret (λ _, Objects))]. }
  intros [].
  apply (triple_bind _ (λ _, Objects)).
  { destruct (compileSources o); [|apply (triple_ret (λ _, Objects))].
    apply triple_monitor, compileTypeScriptToJS_triple. }
  intros []. eapply triple_conseq; [apply (triple_log Objects)| |]; done.
Qed.

End RejectionOrigin.

Section Rejection.
Context {env : Env}.

(** X13.  A run is rejected only with the failure of a call to a
    collaborator that the environment rejected during this run, at the
    point of the run at which it was rejected, and with the error of
    that call unchanged: the converter raises no error of its own. *)
Theorem rejection_is_a_rejected_call (o : FilesConversionOptions) (w0 w : World)
    (e : Error) :
  convertToFiles o w0 = (Rejected e, w) →
  ∃ ev before after,
    e = Failure ev ∧
    trace w = trace w0 ++ before ++ after ∧
    rejects (trace w0 ++ before) ev = true.
Proof.
  intros Hrun.
  destruct (convertToFiles_triple o _ _ _ I Hrun)
    as (_ & ev & history & -> & Hrej & [before ->] & [after Htr]).
  exists ev, before, after. by rewrite app_assoc.
Qed.

End Rejection.

(** * The further properties at concrete inputs *)

(** X5 at the demo run: two icons, the complete icon set, the barrel
    file and three copies of the model file. *)
Lemma resolved_run_write_count_witness :
  convertToFiles (env := demoEnv noRejection []) (demoOptions false ESM) freshWorld
  = (Resolved (), demoRun.2) ∧
  writeCount (trace demoRun.2) = 7.
Proof.
  assert (convertToFiles (env := demoEnv noRejection []) (demoOptions false ESM)
            freshWorld = (Resolved (), demoRun.2)) as Hrun
    by (vm_compute; reflexivity).
  split; [exact Hrun|].
  exact (resolved_run_write_count (env := demoEnv noRejection [])
           (demoOptions false ESM) freshWorld demoRun.2 Hrun).
Defined.

(** X3 at options without compilation. *)
Lemma no_compilation_without_compileSources_witness :
  compileSources (plainOptions false) = false ∧
  ∃ w,
    convertToFiles (env := demoEnv noRejection []) (plainOptions false) freshWorld
    = (Resolved (), w) ∧
    Forall (λ ev, ¬ isCompilerEvent ev) (trace w).
Proof.
  split; [reflexivity|].
  pose proof (no_compilation_without_compileSources (env := demoEnv noRejection [])
                (plainOptions false) freshWorld eq_refl) as Hspec.
  destruct (convertToFiles _ _) as [r w] eqn:Hrun.
  assert (r = Resolved ()) as ->.
  { vm_compute in Hrun. by injection Hrun as <- _. }
  destruct Hspec as (evs & Htr & Hevs).
  exists w. split; [reflexivity|]. rewrite Htr. exact Hevs.
Defined.

(** X7 at the demo icons in TSX mode. *)
Lemma tsx_names_reach_later_stages_witness :
  ∃ w,
    convertToFiles (env := demoEnv noRejection []) (demoOptions true ESM) freshWorld
    = (Resolved (), w) ∧
    WriteFile "out/icons" (Some "all") "set all = [NavHome,NavBack]" None ∈ trace w ∧
    WriteFile "out/icons" (Some "model")
      "type T = NavHome|NavBack;interface Icon {}enum E {NavHome,NavBack}" None
    ∈ trace w.
Proof.
  destruct (convertToFiles (env := demoEnv noRejection []) (demoOptions true ESM)
              freshWorld) as [r w] eqn:Hrun.
  assert (r = Resolved ()) as ->.
  { vm_compute in Hrun. by injection Hrun as <- _. }
  destruct (tsx_names_reach_later_stages (env := demoEnv noRejection [])
              (demoOptions true ESM) freshWorld w eq_refl Hrun) as [Hset Hmodel].
  exists w. split; [reflexivity|].
  split; [exact (Hset eq_refl)|exact (Hmodel eq_refl)].
Defined.

(** X8 at icons whose variable names are capitalised, in TSX mode. *)
Lemma capitalised_names_are_kept_witness :
  ∃ w,
    convertToFiles (env := withIcons capitalIcons [] (demoEnv noRejection []))
      (demoOptions true ESM) freshWorld
    = (Resolved (), w) ∧
    heap w = capitalIcons.
Proof.
  assert (∀ d, d ∈ capitalIcons →
               upperString (charAt0 (variableName d)) = charAt0 (variableName d))
    as Hupper.
  { intros d Hd. repeat (apply elem_of_cons in Hd as [->|Hd]; [reflexivity|]).
    by apply elem_of_nil in Hd. }
  destruct (capitalised_names_are_kept
              (env := withIcons capitalIcons [] (demoEnv noRejection []))
              (demoOptions true ESM) freshWorld Hupper) as [_ Hheap].
  destruct (convertToFiles _ _) as [r w] eqn:Hrun.
  assert (r = Resolved ()) as ->.
  { vm_compute in Hrun. by injection Hrun as <- _. }
  exists w. split; [reflexivity|].
  destruct Hheap as [Hheap|[_ [e He]]]; [exact Hheap|discriminate He].
Defined.

(** X9 at an ingestion that finds nothing. *)
Lemma no_definitions_no_icon_files_witness :
  svgFiles (Env := withIcons [] [] (demoEnv noRejection [])) (demoOptions false ESM) = [] ∧
  ∃ w paths,
    convertToFiles (env := withIcons [] [] (demoEnv noRejection []))
      (demoOptions false ESM) freshWorld
    = (Resolved (), w) ∧
    trace w = trace freshWorld ++
      (stages (env := withIcons [] [] (demoEnv noRejection [])) (demoOptions false ESM)
         [] [] paths ≫= bracket) ++
      [LoggerGenerationSuccess "out"].
Proof.
  split; [reflexivity|].
  destruct (no_definitions_no_icon_files
              (env := withIcons [] [] (demoEnv noRejection []))
              (demoOptions false ESM) "out" "icons" freshWorld freshWorld)
    as (_ & _ & Hrun).
  destruct (convertToFiles (env := withIcons [] [] (demoEnv noRejection []))
              (demoOptions false ESM) freshWorld) as [r w] eqn:Hw.
  assert (r = Resolved ()) as ->.
  { vm_compute in Hw. by injection Hw as <- _. }
  destruct (Hrun eq_refl w eq_refl) as [paths Htr].
  by exists w, paths.
Defined.

(** X10 at the output ESM. *)
Lemma single_target_compilation_witness :
  (compilationOutput (demoOptions false ESM) = ESM ∨
   compilationOutput (demoOptions false ESM) = UMD) ∧
  ∃ w',
    compileTypeScriptToJS (env := demoEnv noRejection []) "out" "icons" "index"
      ESM freshWorld
    = (Resolved (), w') ∧
    trace w' = [GetFilePathsFromRegex ["out/icons/*.ts"; "out/index.ts"];
                CompileToEsNext ["out/icons/*.ts"; "out/index.ts"] "out";
                DeleteFiles ["out/icons/*.ts"; "out/index.ts"]].
Proof.
  split; [by left|].
  pose proof (single_target_compilation (env := demoEnv noRejection [])
                (demoOptions false ESM) freshWorld (or_introl eq_refl)) as Hspec.
  cbv zeta in Hspec.
  change (compilationOutput (demoOptions false ESM)) with ESM in Hspec.
  change (outputDirectory (demoOptions false ESM)) with "out" in Hspec.
  change (iconsFolderName (demoOptions false ESM)) with "icons" in Hspec.
  change (barrelFileName (demoOptions false ESM)) with "index" in Hspec.
  destruct (compileTypeScriptToJS _ _ _ _ _) as [[[]|e] w'].
  - exists w'. split; [reflexivity|exact Hspec].
  - exfalso. destruct Hspec as (made & ev & rest & _ & _ & Hrej & _).
    discriminate Hrej.
Defined.

(** X12 at the demo icons, under a schedule that settles the generator
    of the first callback first and under one that settles that of the
    second callback first. *)
Lemma tsx_names_in_completion_order_witness :
  heap demoWorld = demoIcons ∧
  (∃ w', generateTSXFileConstants (env := demoEnv noRejection [0; 1; 0]) [0; 1]
           "out" "icons" demoWorld
         = (Resolved ["nav-home.icon"; "nav-back.icon"], w')) ∧
  (∃ w', generateTSXFileConstants (env := demoEnv noRejection [1; 0; 0]) [0; 1]
           "out" "icons" demoWorld
         = (Resolved ["nav-back.icon"; "nav-home.icon"], w')).
Proof.
  split; [reflexivity|]. split.
  - pose proof (tsx_names_in_completion_order (env := demoEnv noRejection [0; 1; 0])
                  (mkSvgDefinition "navHome" "navHome" "<svg>h</svg>" "nav" "home")
                  (mkSvgDefinition "navBack" "navBack" "<svg>b</svg>" "nav" "back")
                  "out" "icons" demoWorld eq_refl) as Hspec.
    cbv zeta in Hspec. destruct (generateTSXFileConstants _ _ _ _) as [r w'].
    destruct Hspec as [Hnames Hresolved].
    destruct Hresolved as [names ->]; [intros history ev; reflexivity|].
    exists w'. by rewrite (Hnames names eq_refl).
  - pose proof (tsx_names_in_completion_order (env := demoEnv noRejection [1; 0; 0])
                  (mkSvgDefinition "navHome" "navHome" "<svg>h</svg>" "nav" "home")
                  (mkSvgDefinition "navBack" "navBack" "<svg>b</svg>" "nav" "back")
                  "out" "icons" demoWorld eq_refl) as Hspec.
    cbv zeta in Hspec. destruct (generateTSXFileConstants _ _ _ _) as [r w'].
    destruct Hspec as [Hnames Hresolved].
    destruct Hresolved as [names ->]; [intros history ev; reflexivity|].
    exists w'. by rewrite (Hnames names eq_refl).
Defined.

(** X13 at a run in which the write of the barrel file is rejected. *)
Lemma rejection_is_a_rejected_call_witness :
  ∃ w content before after,
    convertToFiles (env := demoEnv (rejectWriteOf "index") []) (demoOptions false ESM)
      freshWorld
    = (Rejected (Failure (WriteFile "out" (Some "index") content None)), w) ∧
    trace w = trace freshWorld ++ before ++ after.
Proof.
  destruct (convertToFiles (env := demoEnv (rejectWriteOf "index") [])
              (demoOptions false ESM) freshWorld) as [r w] eqn:Hrun.
  assert (∃ content,
            r = Rejected (Failure (WriteFile "out" (Some "index") content None)))
    as [content ->].
  { vm_compute in Hrun. injection Hrun as <- _. by eexists. }
  destruct (rejection_is_a_rejected_call (env := demoEnv (rejectWriteOf "index") [])
              (demoOptions false ESM) freshWorld w _ Hrun)
    as (ev & before & after & _ & Htr & _).
  by exists w, content, before, after.
Defined.


(** X11 at a run in which the UMD compiler is rejected: nothing is
    deleted. *)
Lemma sources_deleted_after_compilation_witness :
  ∃ w' e,
    compileTypeScriptToJS (env := demoEnv rejectCompileToUMD []) "out" "icons" "index"
      ESM_AND_UMD freshWorld
    = (Rejected e, w') ∧
    ∀ before filePaths after, trace w' ≠ before ++ DeleteFiles filePaths :: after.
Proof.
  pose proof (sources_deleted_after_compilation (env := demoEnv rejectCompileToUMD [])
                (demoOptions false ESM_AND_UMD) freshWorld) as Hspec.
  change (compilationOutput (demoOptions false ESM_AND_UMD)) with ESM_AND_UMD in Hspec.
  change (outputDirectory (demoOptions false ESM_AND_UMD)) with "out" in Hspec.
  change (iconsFolderName (demoOptions false ESM_AND_UMD)) with "icons" in Hspec.
  change (barrelFileName (demoOptions false ESM_AND_UMD)) with "index" in Hspec.
  destruct (compileTypeScriptToJS _ _ _ _ _) as [r w'] eqn:Hrun.
  assert (trace w' = [GetFilePathsFromRegex ["out/icons/*.ts"; "out/index.ts"];
                      CompileToEsNext ["out/icons/*.ts"; "out/index.ts"] "out/esm"] ∧
          ∃ e, r = Rejected e) as [Htrace [e ->]].
  { vm_compute in Hrun. injection Hrun as <- <-. split; [reflexivity|by eexists]. }
  exists w', e. split; [reflexivity|].
  destruct Hspec as (evs & Htr & Hevs). intros before filePaths after Heq.
  destruct (Hevs before filePaths after) as (_ & _ & Humd).
  { rewrite Heq in Htr. symmetry. exact Htr. }
  rewrite Htrace in Heq.
  destruct before as [|? [|? [|? before]]]; try discriminate Heq;
    repeat (apply elem_of_cons in Humd as [Humd|Humd]; [discriminate Humd|]);
    by apply elem_of_nil in Humd.
Defined.
